(** * Furniture sales dashboard: the aggregation in [loadData]

    A shallow embedding of the data processing that [loadData] performs in
    [src/furniture-dashboard.tsx] (lines 79-139), together with the parts of
    JavaScript and lodash it rests on:

    - Numbers are IEEE 754 binary64 values ([spec_float] at precision 53);
    - objects are lists of own properties in the order [Object.keys] lists
      them (array-index keys ascending, then the other keys as created);
    - [_.groupBy], [_.map], [_.mapValues], [_.sumBy] and [_.orderBy] follow
      the lodash 4 sources. *)

From Stdlib Require Import ZArith NArith PArith List String Ascii Bool Lia.
From Stdlib Require Import Decimal DecimalString DecimalN DecimalZ.
From Stdlib Require Import Permutation Sorted.
From Stdlib Require Import Floats.SpecFloat.
Import ListNotations.

Local Open Scope string_scope.
Local Open Scope list_scope.

(** ** Numbers *)

Module Number.

Definition prec : Z := 53.
Definition emax : Z := 1024.

Definition add : spec_float -> spec_float -> spec_float := SFadd prec emax.
Definition sub : spec_float -> spec_float -> spec_float := SFsub prec emax.
Definition mul : spec_float -> spec_float -> spec_float := SFmul prec emax.
Definition div : spec_float -> spec_float -> spec_float := SFdiv prec emax.

(** The Number an integer converts to (round to nearest, ties to even). *)
Definition of_Z (z : Z) : spec_float := binary_normalize prec emax z 0 false.
Definition of_nat (n : nat) : spec_float := of_Z (Z.of_nat n).

Definition zero : spec_float := S754_zero false.
Definition hundred : spec_float := of_Z 100.

(** [x !== y], [x > y], [x < y] and [x === x]. *)
Definition strict_neq (x y : spec_float) : bool := negb (SFeqb x y).
Definition gt (x y : spec_float) : bool := SFltb y x.
Definition lt (x y : spec_float) : bool := SFltb x y.
Definition reflexive (x : spec_float) : bool := SFeqb x x.

Definition is_nan (x : spec_float) : bool :=
  match x with S754_nan => true | _ => false end.
Definition is_zero (x : spec_float) : bool :=
  match x with S754_zero _ => true | _ => false end.
Definition is_infinite (x : spec_float) : bool :=
  match x with S754_infinity _ => true | _ => false end.

(** Equal as numbers: the same value, the sign of a zero apart
  ([-0 === 0] holds in JavaScript). *)
Definition same_value (x y : spec_float) : Prop :=
  x = y \/ (is_zero x = true /\ is_zero y = true).

End Number.

(** [getFullYear()] and [parseInt] return [NaN] or an integer; an integer of
    magnitude below 2^53 is a Number exactly, so the [year] a row carries is
    kept as the integer it denotes. *)
Inductive IntNumber : Type :=
  | NaN
  | Int (z : Z).

(** ** Strings and property keys *)

(** [String(n)] for [n] an integer or [NaN]. *)
Definition ToString (n : IntNumber) : string :=
  match n with
  | NaN => "NaN"
  | Int z => NilEmpty.string_of_int (Z.to_int z)
  end.

Definition is_digit (c : ascii) : bool :=
  let n := nat_of_ascii c in (48 <=? n)%nat && (n <=? 57)%nat.

Fixpoint digit_prefix (s : string) : string :=
  match s with
  | String c r => if is_digit c then String c (digit_prefix r) else EmptyString
  | EmptyString => EmptyString
  end.

Definition digits_value (s : string) : option Z :=
  match s with
  | EmptyString => None
  | _ => option_map Z.of_uint (NilEmpty.uint_of_string s)
  end.

(** [parseInt(s)] in radix 10: an optional sign, then the longest run of
    decimal digits; [NaN] when that run is empty.  (The keys it is applied to
    here are results of [ToString], which hold neither leading white space nor
    a [0x] prefix.) *)
Definition parseInt (s : string) : IntNumber :=
  let '(negative, rest) :=
    match s with
    | String "-"%char r => (true, r)
    | String "+"%char r => (false, r)
    | _ => (false, s)
    end in
  match digits_value (digit_prefix rest) with
  | Some z => Int (if negative then Z.opp z else z)
  | None => NaN
  end.

(** An array index is a canonical numeric string whose value is an integer
    in 0 .. 2^32 - 2 (ECMA-262, 6.1.7). *)
Definition arrayIndex (key : string) : option N :=
  match NilEmpty.uint_of_string key with
  | Some u =>
      let n := N.of_uint u in
      if String.eqb (NilEmpty.string_of_uint (N.to_uint n)) key && (n <? 4294967295)%N
      then Some n else None
  | None => None
  end.

(** ** Objects *)

Module JsObject.
Section Objects.
Context {V : Type}.

(** The own enumerable string-keyed properties, in [OrdinaryOwnPropertyKeys]
  order. *)
Definition t : Type := list (string * V).

Definition keys (o : list (string * V)) : list string := map fst o.

Fixpoint get (key : string) (o : list (string * V)) : option V :=
  match o with
  | [] => None
  | (k, v) :: rest => if String.eqb k key then Some v else get key rest
  end.

Definition has (key : string) (o : list (string * V)) : bool :=
  match get key o with Some _ => true | None => false end.

(** Assignment to a property that exists keeps its place. *)
Fixpoint replace (key : string) (v : V) (o : list (string * V)) : list (string * V) :=
  match o with
  | [] => []
  | (k, w) :: rest =>
      if String.eqb k key then (k, v) :: rest else (k, w) :: replace key v rest
  end.

(** A new array-index key goes among the array indices, in ascending order. *)
Fixpoint insert_index (n : N) (key : string) (v : V) (o : list (string * V))
  : list (string * V) :=
  match o with
  | [] => [(key, v)]
  | (k, w) :: rest =>
      match arrayIndex k with
      | Some m => if (m <? n)%N then (k, w) :: insert_index n key v rest
                  else (key, v) :: o
      | None => (key, v) :: o
      end
  end.

(** A new key: array indices in numeric order first, every other key after
  all the keys created before it. *)
Definition define (key : string) (v : V) (o : list (string * V)) : list (string * V) :=
  match arrayIndex key with
  | Some n => insert_index n key v o
  | None => o ++ [(key, v)]
  end.

(** [o[key] = v]. *)
Definition set (key : string) (v : V) (o : list (string * V)) : list (string * V) :=
  if has key o then replace key v o else define key v o.

End Objects.
Arguments t : clear implicits.
End JsObject.

(** ** lodash *)

(** The setter of [_.groupBy]: a value joins the array under its key, or
    starts one ([hasOwnProperty], then [push] or [baseAssignValue]). *)
Definition groupBy_step {A : Type} (iteratee : A -> string)
  (result : JsObject.t (list A)) (value : A) : JsObject.t (list A) :=
  let key := iteratee value in
  match JsObject.get key result with
  | Some group => JsObject.replace key (group ++ [value]) result
  | None => JsObject.define key [value] result
  end.

(** [_.groupBy(collection, iteratee)]: the setter is run on every value, in
    the collection's order, starting from an empty object. *)
Definition groupBy {A : Type} (iteratee : A -> string) (collection : list A)
  : JsObject.t (list A) :=
  fold_left (groupBy_step iteratee) collection [].

(** [_.sumBy(array, iteratee)]: [0] for an empty array; otherwise [baseSum]
    starts from the first value and adds the others left to right. *)
Definition sumBy {A : Type} (array : list A) (iteratee : A -> spec_float)
  : spec_float :=
  match array with
  | [] => Number.zero
  | first :: rest =>
      fold_left (fun result value => Number.add result (iteratee value))
                rest (iteratee first)
  end.

(** [_.mapValues(object, iteratee)]. *)
Definition mapValues {V W : Type} (iteratee : V -> W) (object : JsObject.t V)
  : JsObject.t W :=
  fold_left (fun result '(key, value) => JsObject.set key (iteratee value) result)
            object [].

(** [compareAscending] on two Numbers. *)
Definition compareAscending (value other : spec_float) : Z :=
  if Number.strict_neq value other then
    if Number.gt value other || negb (Number.reflexive value) then 1
    else if Number.lt value other || negb (Number.reflexive other) then (-1)
    else 0
  else 0.

(** The records [baseOrderBy] sorts: one criterion, the position in the
    collection, the value. *)
Record Sortable (A : Type) : Type := mkSortable
  { criteria : spec_float; index : nat; value : A }.
Arguments mkSortable {A}.
Arguments criteria {A}.
Arguments index {A}.
Arguments value {A}.

(** [compareMultiple(object, other, ['desc'])]. *)
Definition compareMultiple {A : Type} (object other : Sortable A) : Z :=
  let result := compareAscending (criteria object) (criteria other) in
  if (result =? 0)%Z then (Z.of_nat (index object) - Z.of_nat (index other))%Z
  else (result * -1)%Z.

(** [array.sort(comparer)].  For a consistent comparer the sorted order is
    the same whatever the algorithm; insertion is the one written here.  A
    comparer that is not consistent (two or more [NaN] criteria) leaves the
    order to the engine's algorithm, which this definition does not follow:
    there, only that the result is a rearrangement is meant. *)
Fixpoint sort_insert {A : Type} (comparer : A -> A -> Z) (x : A) (sorted : list A)
  : list A :=
  match sorted with
  | [] => [x]
  | y :: rest =>
      if (comparer x y <=? 0)%Z then x :: sorted
      else y :: sort_insert comparer x rest
  end.

Definition sort {A : Type} (comparer : A -> A -> Z) (array : list A) : list A :=
  fold_right (sort_insert comparer) [] array.

Fixpoint with_index {A : Type} (iteratee : A -> spec_float) (from : nat)
  (collection : list A) : list (Sortable A) :=
  match collection with
  | [] => []
  | v :: rest => mkSortable (iteratee v) from v :: with_index iteratee (S from) rest
  end.

(** [_.orderBy(collection, [iteratee], ['desc'])]. *)
Definition orderBy_desc {A : Type} (iteratee : A -> spec_float) (collection : list A)
  : list A :=
  map value (sort compareMultiple (with_index iteratee 0 collection)).

(** ** The data *)

(** The Date that [new Date(row['Order Date'])] constructs: Invalid Date, or a
    time value, of which only the full year (local time) is read; it lies
    between -271821 and 275760. *)
Inductive JsDate : Type :=
  | InvalidDate
  | ValidDate (fullYear : Z).

Definition getFullYear (d : JsDate) : IntNumber :=
  match d with
  | InvalidDate => NaN
  | ValidDate y => Int y
  end.

(** A row of [parsedData.data], with the four columns that are read.  [Sales]
    and [Profit] are Numbers, as [dynamicTyping] makes them and the
    interfaces of lines 23-45 declare. *)
Record Row : Type := mkRow
  { Order_Date : JsDate;
    Sales : spec_float;
    Profit : spec_float;
    Sub_Category : string }.

(** Lines 23-31; [orders] is an array length. *)
Record YearlyData : Type := mkYearlyData
  { year : IntNumber;
    sales : spec_float;
    profit : spec_float;
    orders : nat;
    avgOrderValue : spec_float;
    salesGrowth : spec_float;
    profitGrowth : spec_float }.

(** Lines 33-38. *)
Module TotalMetrics.
Record t : Type := mk
  { totalSales : spec_float;
    totalProfit : spec_float;
    totalOrders : nat;
    avgOrderValue : spec_float }.
End TotalMetrics.

(** Lines 40-45. *)
Module SubCategoryData.
Record t : Type := mk
  { name : string;
    value : spec_float;
    profit : spec_float;
    orders : nat }.
End SubCategoryData.

(** A property of a trend row: [year] holds what [parseInt] returned, every
    other property a sum of sales. *)
Inductive TrendValue : Type :=
  | YearValue (y : IntNumber)
  | SalesValue (x : spec_float).

Definition TrendRow : Type := JsObject.t TrendValue.

(** ** [loadData], lines 81-139 *)

(** [row => new Date(row['Order Date']).getFullYear()], as the property key
    [groupBy] makes of it. *)
Definition yearKey (row : Row) : string := ToString (getFullYear (Order_Date row)).

(** The callback of lines 84-92. *)
Definition yearlyEntry (year : string) (yearData : list Row) : YearlyData :=
  {| year := parseInt year;
     sales := sumBy yearData Sales;
     profit := sumBy yearData Profit;
     orders := List.length yearData;
     avgOrderValue :=
       Number.div (sumBy yearData Sales) (Number.of_nat (List.length yearData));
     salesGrowth := Number.zero;
     profitGrowth := Number.zero |}.

(** Lines 82-93: [yearlyStats] before the [forEach]. *)
Definition yearlyStats_grouped (data : list Row) : list YearlyData :=
  map (fun '(year, yearData) => yearlyEntry year yearData) (groupBy yearKey data).

(** [((cur - prev) / prev) * 100]. *)
Definition growth (cur prev : spec_float) : spec_float :=
  Number.mul (Number.div (Number.sub cur prev) prev) Number.hundred.

Fixpoint update {A : Type} (i : nat) (f : A -> A) (l : list A) : list A :=
  match l, i with
  | [], _ => []
  | x :: rest, O => f x :: rest
  | x :: rest, S j => x :: update j f rest
  end.

(** The two assignments of lines 98-99. *)
Definition assign_growth (previous entry : YearlyData) : YearlyData :=
  {| year := entry.(year);
     sales := entry.(sales);
     profit := entry.(profit);
     orders := entry.(orders);
     avgOrderValue := entry.(avgOrderValue);
     salesGrowth := growth entry.(sales) previous.(sales);
     profitGrowth := growth entry.(profit) previous.(profit) |}.

(** The callback of lines 96-101, on the array as it stands when called:
    [yearlyStats[index - 1]] is read from the array being updated ([forEach]
    calls it with the indices of the array only, so that entry exists). *)
Definition growth_callback (yearlyStats : list YearlyData) (index : nat)
  : list YearlyData :=
  if (0 <? index)%nat then
    match nth_error yearlyStats (index - 1) with
    | Some previous => update index (assign_growth previous) yearlyStats
    | None => yearlyStats
    end
  else yearlyStats.

(** Lines 82-101: [yearlyStats] once the [forEach] has run. *)
Definition yearlyStats (data : list Row) : list YearlyData :=
  let grouped := yearlyStats_grouped data in
  fold_left growth_callback (seq 0 (List.length grouped)) grouped.

(** Lines 106-111. *)
Definition totals (data : list Row) : TotalMetrics.t :=
  {| TotalMetrics.totalSales := sumBy data Sales;
     TotalMetrics.totalProfit := sumBy data Profit;
     TotalMetrics.totalOrders := List.length data;
     TotalMetrics.avgOrderValue :=
       Number.div (sumBy data Sales) (Number.of_nat (List.length data)) |}.

(** The callback of lines 116-121. *)
Definition subCategoryEntry (subCategory : string) (subCatData : list Row)
  : SubCategoryData.t :=
  {| SubCategoryData.name := subCategory;
     SubCategoryData.value := sumBy subCatData Sales;
     SubCategoryData.profit := sumBy subCatData Profit;
     SubCategoryData.orders := List.length subCatData |}.

(** Lines 114-121, before the [orderBy]. *)
Definition subCategoryStats_grouped (data : list Row) : list SubCategoryData.t :=
  map (fun '(subCategory, subCatData) => subCategoryEntry subCategory subCatData)
      (groupBy Sub_Category data).

(** Lines 114-123, with the [orderBy]. *)
Definition subCategoryStats (data : list Row) : list SubCategoryData.t :=
  orderBy_desc SubCategoryData.value (subCategoryStats_grouped data).

(** [{ year: parseInt(year), ...sums }]: the spread defines or overwrites
    one property per key of [sums], in their order. *)
Definition trendRow (year : string) (yearData : list Row) : TrendRow :=
  let subCategories := groupBy Sub_Category yearData in
  let sums := mapValues (fun subCatData => sumBy subCatData Sales) subCategories in
  fold_left (fun row '(key, x) => JsObject.set key (SalesValue x) row)
            sums [("year", YearValue (parseInt year))].

(** Lines 128-137. *)
Definition subCategoryTrendsData (data : list Row) : list TrendRow :=
  map (fun '(year, yearData) => trendRow year yearData) (groupBy yearKey data).

(** [parsedData], the result of [Papa.parse]. *)
Module ParseResult.
Record t : Type := mk
  { data : list Row;
    errors : list string }.
End ParseResult.

(** What [loadData] awaits: [response.ok], and [parsedData] as parsed from
    the text of the response. *)
Record Fetched : Type := mkFetched
  { ok : bool;
    parsedData : ParseResult.t }.

(** A response that is ok and parses without errors into the given rows. *)
Definition fetched (rows : list Row) : Fetched :=
  mkFetched true (ParseResult.mk rows []).

(** The component's state: the five [useState] cells. *)
Record DashboardState : Type := mkState
  { yearlyData : list YearlyData;
    totalMetrics : TotalMetrics.t;
    subCategoryData : list SubCategoryData.t;
    subCategoryTrends : list TrendRow;
    error : option string }.

(** Lines 48-57. *)
Definition initialState : DashboardState :=
  {| yearlyData := [];
     totalMetrics := TotalMetrics.mk Number.zero Number.zero 0 Number.zero;
     subCategoryData := [];
     subCategoryTrends := [];
     error := None |}.

(** Lines 142-145: the [catch] sets the message and nothing else. *)
Definition failed : DashboardState :=
  {| yearlyData := yearlyData initialState;
     totalMetrics := totalMetrics initialState;
     subCategoryData := subCategoryData initialState;
     subCategoryTrends := subCategoryTrends initialState;
     error := Some "Failed to load dashboard data. Please try again later." |}.

(** [loadData], run once on the initial state: both [throw]s are caught and
    leave the error message; nothing after them throws. *)
Definition loadData (response : Fetched) : DashboardState :=
  if negb (ok response) then failed
  else if (0 <? List.length (ParseResult.errors (parsedData response)))%nat then failed
  else
    let data := ParseResult.data (parsedData response) in
    {| yearlyData := yearlyStats data;
       totalMetrics := totals data;
       subCategoryData := subCategoryStats data;
       subCategoryTrends := subCategoryTrendsData data;
       error := None |}.

(** ** The rest of the component *)

(** Line 8. *)
Definition COLORS : list string := ["#2563eb"; "#16a34a"; "#eab308"; "#dc2626"].

(** A [Cell] of the pie chart, line 274. *)
Module Cell.
Record t : Type := mk
  { key : string;
    fill : option string }.
End Cell.

(** Line 274: the key [cell-${index}] and the fill
    [COLORS[index % COLORS.length]], which is [undefined] where the array has
    no element. *)
Definition cell (index : nat) : Cell.t :=
  {| Cell.key := ("cell-" ++ ToString (Int (Z.of_nat index)))%string;
     Cell.fill := nth_error COLORS (index mod List.length COLORS) |}.

(** Lines 273-275: [subCategoryData.map((entry, index) => <Cell ... />)]. *)
Definition pieCells (subCategoryData : list SubCategoryData.t) : list Cell.t :=
  map cell (seq 0 (List.length subCategoryData)).

(** *** [toFixed] *)

(** A finite Number is [m * 2^e]; as a fraction of integers, its magnitude
    is [magnitude_num / magnitude_den]. *)
Definition magnitude_num (m : positive) (e : Z) : Z := Z.pos m * 2 ^ Z.max e 0.
Definition magnitude_den (e : Z) : Z := 2 ^ Z.max (- e) 0.

(** The integer [n] for which [n / 10^f - x] is as close to zero as possible,
    the larger one if there are two. *)
Definition nearest_scaled (f : nat) (m : positive) (e : Z) : Z :=
  (2 * magnitude_num m e * 10 ^ Z.of_nat f + magnitude_den e)
  / (2 * magnitude_den e).

Fixpoint zeros (n : nat) : string :=
  match n with
  | O => EmptyString
  | S k => String "0" (zeros k)
  end.

Definition decimal_digits (n : Z) : string :=
  NilEmpty.string_of_uint (N.to_uint (Z.to_N n)).

(** Steps 11.b to 11.d of [Number.prototype.toFixed]: the digits of [n],
    filled with zeros up to [f + 1] digits, with a point before the last
    [f] (no point when [f] is 0). *)
Definition fixed_digits (f : nat) (n : Z) : string :=
  let m := decimal_digits n in
  match f with
  | O => m
  | S _ =>
      let m := if (String.length m <=? f)%nat
               then (zeros (f + 1 - String.length m) ++ m)%string else m in
      let k := String.length m in
      (substring 0 (k - f) m ++ "." ++ substring (k - f) f m)%string
  end.

Section Formatting.

(** [Number::toString] on a finite Number of 10^21 or more, on which
    [toFixed] falls back; it prints such a Number with an exponent. *)
Variable toString_large : spec_float -> string.

(** [x.toFixed(f)], for [f] from 0 to 100 (ECMA-262, 21.1.3.3). *)
Definition toFixed (f : nat) (x : spec_float) : string :=
  match x with
  | S754_nan => "NaN"
  | S754_infinity false => "Infinity"
  | S754_infinity true => "-Infinity"
  | S754_zero _ => fixed_digits f 0
  | S754_finite s m e =>
      ((if s then "-" else "") ++
       (if (10 ^ 21 * magnitude_den e <=? magnitude_num m e)%Z
        then toString_large (S754_finite false m e)
        else fixed_digits f (nearest_scaled f m e)))%string
  end.

(** Lines 19-21. *)
Definition formatPercent (value : spec_float) : string :=
  (toFixed 1 value ++ "%")%string.

(** The [label] of the pie, line 272. *)
Definition pieLabel (name : string) (percent : spec_float) : string :=
  (name ++ " (" ++ toFixed 0 (Number.mul percent Number.hundred) ++ "%)")%string.

End Formatting.

(** ** Vocabulary of the statements *)

(** Where a key is first seen in a list of keys. *)
Fixpoint first_index (key : string) (l : list string) : option nat :=
  match l with
  | [] => None
  | k :: rest =>
      if String.eqb k key then Some 0%nat
      else option_map S (first_index key rest)
  end.

(** [k1] is first seen before [k2] in a list of keys. *)
Definition seen_before (ks : list string) (k1 k2 : string) : Prop :=
  exists p1 p2,
    first_index k1 ks = Some p1 /\ first_index k2 ks = Some p2 /\ (p1 < p2)%nat.

(** The order in which an object lists the keys it was given in the order
    [ks]: array indices ascending, then the other keys as first seen. *)
Definition own_order (ks : list string) (k1 k2 : string) : Prop :=
  match arrayIndex k1, arrayIndex k2 with
  | Some n1, Some n2 => (n1 < n2)%N
  | Some _, None => True
  | None, Some _ => False
  | None, None => seen_before ks k1 k2
  end.

(** The values of a collection whose key is [key], in the collection's order. *)
Definition group_of {A : Type} (iteratee : A -> string) (key : string)
  (collection : list A) : list A :=
  filter (fun value => String.eqb (iteratee value) key) collection.

(** The growth pass as a scan that carries the previous entry. *)
Fixpoint growth_from (previous : YearlyData) (l : list YearlyData) : list YearlyData :=
  match l with
  | [] => []
  | entry :: rest => assign_growth previous entry :: growth_from entry rest
  end.

Definition growth_pass (l : list YearlyData) : list YearlyData :=
  match l with
  | [] => []
  | first :: rest => first :: growth_from first rest
  end.

(** The sum of a list of Numbers, added from zero, left to right. *)
Definition float_sum (xs : list spec_float) : spec_float :=
  fold_left Number.add xs Number.zero.

(** A Number's place in the order of [<], as a triple compared
    lexicographically: class and sign, exponent, mantissa. *)
Definition float_rank (x : spec_float) : Z * Z * Z :=
  match x with
  | S754_infinity true => (-2, 0, 0)
  | S754_finite true m e => (-1, - e, Z.neg m)
  | S754_zero _ => (0, 0, 0)
  | S754_finite false m e => (1, e, Z.pos m)
  | S754_infinity false => (2, 0, 0)
  | S754_nan => (3, 0, 0)
  end%Z.

Definition rank_compare (a b : Z * Z * Z) : comparison :=
  let '(a1, a2, a3) := a in
  let '(b1, b2, b3) := b in
  match (a1 ?= b1)%Z with
  | Eq => match (a2 ?= b2)%Z with Eq => (a3 ?= b3)%Z | c => c end
  | c => c
  end.

Definition rank_lt (a b : Z * Z * Z) : Prop :=
  let '(a1, a2, a3) := a in
  let '(b1, b2, b3) := b in
  (a1 < b1 \/ (a1 = b1 /\ (a2 < b2 \/ (a2 = b2 /\ a3 < b3))))%Z.

(** The order [compareMultiple] sorts by: the larger criterion first, and
    among equal criteria the smaller position first. *)
Definition sort_le {A : Type} (a b : Sortable A) : Prop :=
  rank_lt (float_rank (criteria b)) (float_rank (criteria a)) \/
  (float_rank (criteria a) = float_rank (criteria b) /\ (index a <= index b)%nat).

(** A record whose criterion compares consistently: every Number but NaN. *)
Definition comparable {A : Type} (x : Sortable A) : Prop :=
  Number.is_nan (criteria x) = false.

(** No row is dated before the year 0 (a year that is an array index; the
    years of a Date end at 275760). *)
Definition no_negative_year (data : list Row) : Prop :=
  forall row y,
    In row data -> Order_Date row = ValidDate y -> (0 <= y < 4294967295)%Z.

(** Ascending years; an entry whose year is [NaN] comes after them. *)
Definition year_before (y1 y2 : IntNumber) : Prop :=
  match y1, y2 with
  | Int a, Int b => (a < b)%Z
  | Int _, NaN => True
  | NaN, _ => False
  end.

(** [row.year], as the chart's [dataKey="year"] reads it. *)
Definition trend_year (row : TrendRow) : option TrendValue :=
  JsObject.get "year" row.

(** The exact value of a finite Number, counted in units of 2^-1074 (every
    finite binary64 value is a whole number of them), and the exact sum of a
    list of finite Numbers in the same units. *)
Definition units (x : spec_float) : Z :=
  match x with
  | S754_finite s m e => ((if s then -1 else 1) * Z.pos m * 2 ^ (e + 1074))%Z
  | _ => 0%Z
  end.

Definition exact_sum (xs : list spec_float) : Z :=
  fold_right Z.add 0%Z (map units xs).

(** [Number.isFinite]: neither [NaN] nor an infinity. *)
Definition isFinite (x : spec_float) : bool :=
  match x with
  | S754_zero _ | S754_finite _ _ _ => true
  | _ => false
  end.

(** [n - 1/2 <= |x| * 10^f < n + 1/2] for the finite Number [x] of mantissa
    [m] and exponent [e]: [n] is the integer nearest to [|x| * 10^f], the
    larger one when two are equally near. *)
Definition rounds_to (f : nat) (m : positive) (e : Z) (n : Z) : Prop :=
  ((2 * n - 1) * magnitude_den e <= 2 * magnitude_num m e * 10 ^ Z.of_nat f
   /\ 2 * magnitude_num m e * 10 ^ Z.of_nat f < (2 * n + 1) * magnitude_den e)%Z.

(** * Properties *)

(** ** Keys: [ToString], [parseInt] and [arrayIndex] *)

Lemma digit_prefix_uint (u : uint) :
  digit_prefix (NilEmpty.string_of_uint u) = NilEmpty.string_of_uint u.
Proof.
  induction u; simpl; try rewrite IHu; reflexivity.
Qed.

Lemma string_of_uint_nonempty (u : uint) :
  u <> Nil -> NilEmpty.string_of_uint u <> EmptyString.
Proof.
  destruct u; simpl; congruence.
Qed.

Lemma digits_value_uint (u : uint) :
  u <> Nil -> digits_value (NilEmpty.string_of_uint u) = Some (Z.of_uint u).
Proof.
  intros Hu. unfold digits_value.
  destruct (NilEmpty.string_of_uint u) eqn:E.
  - now apply string_of_uint_nonempty in E.
  - rewrite <- E, NilEmpty.usu. reflexivity.
Qed.

Lemma parseInt_unsigned (u : uint) :
  u <> Nil -> parseInt (NilEmpty.string_of_uint u) = Int (Z.of_uint u).
Proof.
  intros Hu. unfold parseInt.
  assert (E : match NilEmpty.string_of_uint u with
              | String "-"%char r => (true, r)
              | String "+"%char r => (false, r)
              | _ => (false, NilEmpty.string_of_uint u)
              end = (false, NilEmpty.string_of_uint u))
    by (destruct u; reflexivity).
  rewrite E, digit_prefix_uint, digits_value_uint by assumption.
  reflexivity.
Qed.

Lemma to_int_nonnil (z : Z) :
  match Z.to_int z with Pos u | Neg u => u <> Nil end.
Proof.
  destruct z; simpl; try apply DecimalPos.Unsigned.to_uint_nonnil.
  discriminate.
Qed.

(** [parseInt] reads back the year a key was made from. *)
Lemma parseInt_ToString (n : IntNumber) : parseInt (ToString n) = n.
Proof.
  destruct n as [|z]; [reflexivity|].
  unfold ToString. pose proof (to_int_nonnil z) as Hn.
  pose proof (DecimalZ.of_to z) as Hz.
  destruct (Z.to_int z) as [u|u]; simpl in *.
  - rewrite parseInt_unsigned by assumption. now rewrite Hz.
  - unfold parseInt.
    rewrite digit_prefix_uint, digits_value_uint by assumption.
    now rewrite Hz.
Qed.

Lemma ToString_inj (n m : IntNumber) : ToString n = ToString m -> n = m.
Proof.
  intros H. rewrite <- (parseInt_ToString n), <- (parseInt_ToString m).
  now rewrite H.
Qed.

Lemma arrayIndex_spec (key : string) (n : N) :
  arrayIndex key = Some n ->
  key = NilEmpty.string_of_uint (N.to_uint n) /\ (n < 4294967295)%N.
Proof.
  unfold arrayIndex.
  destruct (NilEmpty.uint_of_string key) as [u|]; [|discriminate].
  destruct (String.eqb_spec (NilEmpty.string_of_uint (N.to_uint (N.of_uint u))) key)
    as [E|E]; simpl; [|discriminate].
  destruct (N.ltb_spec (N.of_uint u) 4294967295); [|discriminate].
  intros [= <-]. split; [now symmetry | assumption].
Qed.

Lemma arrayIndex_inj (k1 k2 : string) (n : N) :
  arrayIndex k1 = Some n -> arrayIndex k2 = Some n -> k1 = k2.
Proof.
  intros H1 H2. apply arrayIndex_spec in H1, H2.
  destruct H1 as [-> _], H2 as [-> _]. reflexivity.
Qed.

Lemma arrayIndex_of_N (n : N) :
  (n < 4294967295)%N ->
  arrayIndex (NilEmpty.string_of_uint (N.to_uint n)) = Some n.
Proof.
  intros Hn. unfold arrayIndex.
  rewrite NilEmpty.usu, DecimalN.Unsigned.of_to, String.eqb_refl.
  apply N.ltb_lt in Hn. now rewrite Hn.
Qed.

(** A year from 0 to 4294967294 makes an array-index key. *)
Lemma arrayIndex_ToString (z : Z) :
  (0 <= z < 4294967295)%Z -> arrayIndex (ToString (Int z)) = Some (Z.to_N z).
Proof.
  intros Hz.
  replace (ToString (Int z)) with (NilEmpty.string_of_uint (N.to_uint (Z.to_N z))).
  - apply arrayIndex_of_N. lia.
  - destruct z; try reflexivity. lia.
Qed.

Lemma arrayIndex_ToString_negative (z : Z) :
  (z < 0)%Z -> arrayIndex (ToString (Int z)) = None.
Proof.
  destruct z as [| |p]; try lia. intros _.
  unfold arrayIndex, ToString. simpl.
  destruct (NilEmpty.uint_of_string (NilEmpty.string_of_uint (Pos.to_uint p)));
    reflexivity.
Qed.

Lemma arrayIndex_ToString_NaN : arrayIndex (ToString NaN) = None.
Proof. reflexivity. Qed.

(** ** Objects *)

Lemma first_index_Some (k : string) (ks : list string) (p : nat) :
  first_index k ks = Some p -> (p < List.length ks)%nat /\ nth_error ks p = Some k.
Proof.
  revert p. induction ks as [|k' ks IH]; simpl; intros p; [discriminate|].
  destruct (String.eqb_spec k' k) as [->|Hne].
  - intros [= <-]. split; [lia|reflexivity].
  - destruct (first_index k ks) as [q|]; simpl; [|discriminate].
    intros [= <-]. destruct (IH q eq_refl). split; [lia|assumption].
Qed.

Lemma first_index_None (k : string) (ks : list string) :
  first_index k ks = None <-> ~ In k ks.
Proof.
  induction ks as [|k' ks IH]; simpl.
  - split; [intros _ []|reflexivity].
  - destruct (String.eqb_spec k' k) as [->|Hne].
    + split; [discriminate|]. intros H. exfalso. apply H. now left.
    + destruct (first_index k ks); simpl.
      * split; [discriminate|]. intros H. exfalso.
        destruct IH as [_ IH]. enough (Some n = None) by discriminate.
        apply IH. intros Hin. apply H. now right.
      * split; [|reflexivity]. intros _ [E|Hin]; [congruence|].
        now apply IH.
Qed.

Lemma first_index_In (k : string) (ks : list string) :
  In k ks -> exists p, first_index k ks = Some p.
Proof.
  intros Hin. destruct (first_index k ks) as [p|] eqn:E; [now exists p|].
  now apply first_index_None in E.
Qed.

Lemma first_index_app (k : string) (ks ks' : list string) :
  first_index k (ks ++ ks') =
  match first_index k ks with
  | Some p => Some p
  | None => option_map (Nat.add (List.length ks)) (first_index k ks')
  end.
Proof.
  induction ks as [|k' ks IH]; simpl.
  - now destruct (first_index k ks').
  - destruct (String.eqb_spec k' k); [reflexivity|].
    rewrite IH. destruct (first_index k ks); simpl; [reflexivity|].
    now destruct (first_index k ks').
Qed.

Lemma seen_before_app (ks ks' : list string) (k1 k2 : string) :
  seen_before ks k1 k2 -> seen_before (ks ++ ks') k1 k2.
Proof.
  intros (p1 & p2 & H1 & H2 & Hlt). exists p1, p2.
  rewrite !first_index_app, H1, H2. auto.
Qed.

(** A key seen for the first time comes after every key seen before. *)
Lemma seen_before_new (ks : list string) (k1 k2 : string) :
  In k1 ks -> ~ In k2 ks -> seen_before (ks ++ [k2]) k1 k2.
Proof.
  intros H1 H2. destruct (first_index_In _ _ H1) as [p1 E1].
  apply first_index_None in H2.
  exists p1, (List.length ks). rewrite !first_index_app, E1, H2. simpl.
  rewrite String.eqb_refl. simpl.
  repeat split; [f_equal; lia|]. now apply first_index_Some in E1.
Qed.

Lemma own_order_app (ks ks' : list string) (k1 k2 : string) :
  own_order ks k1 k2 -> own_order (ks ++ ks') k1 k2.
Proof.
  unfold own_order. destruct (arrayIndex k1), (arrayIndex k2); auto.
  apply seen_before_app.
Qed.

Lemma StronglySorted_impl {A : Type} (R R' : A -> A -> Prop) (l : list A) :
  (forall a b, R a b -> R' a b) -> StronglySorted R l -> StronglySorted R' l.
Proof.
  intros HR. induction 1 as [|a l Hs IH Ha]; constructor; [assumption|].
  eapply Forall_impl; [|exact Ha]. apply HR.
Qed.

Section ObjectFacts.
Context {V : Type} (ks : list string).
Implicit Types (o : list (string * V)) (k key : string) (v : V).

Lemma get_In o k v : JsObject.get k o = Some v -> In (k, v) o.
Proof.
  induction o as [|[k' w] o IH]; simpl; [discriminate|].
  destruct (String.eqb_spec k' k) as [->|Hne].
  - intros [= ->]. now left.
  - intros H. right. now apply IH.
Qed.

Lemma get_None o k : JsObject.get k o = None <-> ~ In k (JsObject.keys o).
Proof.
  induction o as [|[k' w] o IH]; simpl.
  - split; [intros _ []|reflexivity].
  - destruct (String.eqb_spec k' k) as [->|Hne].
    + split; [discriminate|]. intros H. exfalso. apply H. now left.
    + rewrite IH. split; intros H; [intros [E|E]; [congruence|now apply H]|].
      intros E. apply H. now right.
Qed.

Lemma In_get o k v :
  NoDup (JsObject.keys o) -> In (k, v) o -> JsObject.get k o = Some v.
Proof.
  induction o as [|[k' w] o IH]; simpl; [intros _ []|].
  intros Hnd [E|Hin]; inversion Hnd as [|? ? Hnotin Hnd']; subst.
  - injection E as -> ->. now rewrite String.eqb_refl.
  - destruct (String.eqb_spec k' k) as [->|Hne].
    + exfalso. apply Hnotin. change k with (fst (k, v)). now apply in_map.
    + now apply IH.
Qed.

Lemma keys_replace o k v : JsObject.keys (JsObject.replace k v o) = JsObject.keys o.
Proof.
  induction o as [|[k' w] o IH]; simpl; [reflexivity|].
  destruct (String.eqb_spec k' k); simpl; [reflexivity|now rewrite IH].
Qed.

Lemma get_replace o k v k' :
  JsObject.get k' (JsObject.replace k v o) =
  if String.eqb k k' then option_map (fun _ => v) (JsObject.get k o)
  else JsObject.get k' o.
Proof.
  induction o as [|[k0 w] o IH]; simpl.
  - now destruct (String.eqb k k').
  - destruct (String.eqb_spec k0 k) as [->|Hne]; simpl.
    + destruct (String.eqb_spec k k'); reflexivity.
    + destruct (String.eqb_spec k0 k') as [->|Hne'].
      * destruct (String.eqb_spec k k'); [congruence|reflexivity].
      * exact IH.
Qed.

(** A new property lands somewhere in the list; the others keep their
    places. *)
Lemma define_split o k v :
  exists o1 o2, o = o1 ++ o2 /\ JsObject.define k v o = o1 ++ (k, v) :: o2.
Proof.
  unfold JsObject.define. destruct (arrayIndex k) as [n|].
  - induction o as [|[k' w] o (o1 & o2 & E1 & E2)]; simpl.
    + now exists [], [].
    + destruct (arrayIndex k') as [m|].
      * destruct (m <? n)%N.
        -- exists ((k', w) :: o1), o2. simpl. now rewrite E2, <- E1.
        -- now exists [], ((k', w) :: o).
      * now exists [], ((k', w) :: o).
  - exists o, []. now rewrite app_nil_r.
Qed.

Lemma get_middle o1 o2 k v k' :
  JsObject.get k (o1 ++ o2) = None ->
  JsObject.get k' (o1 ++ (k, v) :: o2) =
  if String.eqb k k' then Some v else JsObject.get k' (o1 ++ o2).
Proof.
  induction o1 as [|[k0 w] o1 IH]; simpl.
  - reflexivity.
  - destruct (String.eqb_spec k0 k) as [->|Hne]; [discriminate|].
    intros H. destruct (String.eqb_spec k0 k') as [->|Hne'].
    + destruct (String.eqb_spec k k'); [congruence|reflexivity].
    + now apply IH.
Qed.

Lemma get_define o k v k' :
  JsObject.get k o = None ->
  JsObject.get k' (JsObject.define k v o) =
  if String.eqb k k' then Some v else JsObject.get k' o.
Proof.
  intros H. destruct (define_split o k v) as (o1 & o2 & E1 & ->).
  subst o. now apply get_middle.
Qed.

Lemma keys_define_perm o k v :
  Permutation (JsObject.keys (JsObject.define k v o)) (k :: JsObject.keys o).
Proof.
  destruct (define_split o k v) as (o1 & o2 & -> & ->).
  unfold JsObject.keys. rewrite !map_app. simpl.
  symmetry. apply Permutation_middle.
Qed.

Lemma keys_define_In o k v k' :
  In k' (JsObject.keys (JsObject.define k v o)) <-> k' = k \/ In k' (JsObject.keys o).
Proof.
  split; intros H.
  - apply (Permutation_in _ (keys_define_perm o k v)) in H.
    destruct H; [left; congruence|now right].
  - apply (Permutation_in _ (Permutation_sym (keys_define_perm o k v))).
    destruct H; [left; congruence|now right].
Qed.

Lemma own_order_index_trans k1 k2 k3 n :
  arrayIndex k1 = Some n ->
  own_order ks k1 k2 -> own_order ks k2 k3 -> own_order ks k1 k3.
Proof.
  unfold own_order. intros ->.
  destruct (arrayIndex k2), (arrayIndex k3); try tauto. lia.
Qed.

Lemma StronglySorted_snoc {A : Type} (R : A -> A -> Prop) (l : list A) (x : A) :
  StronglySorted R l -> Forall (fun y => R y x) l -> StronglySorted R (l ++ [x]).
Proof.
  induction 1 as [|a l Hs IH Ha]; intros Hx; simpl.
  - constructor; constructor.
  - inversion Hx; subst. constructor; [now apply IH|].
    apply Forall_app. split; [assumption|]. now constructor.
Qed.

Lemma keys_insert_index_In o n k v k' :
  arrayIndex k = Some n ->
  In k' (JsObject.keys (JsObject.insert_index n k v o)) ->
  k' = k \/ In k' (JsObject.keys o).
Proof.
  intros Ek Hin. apply (keys_define_In o k v k').
  unfold JsObject.define. now rewrite Ek.
Qed.

Lemma define_sorted o k v :
  ~ In k (JsObject.keys o) ->
  (forall k', In k' (JsObject.keys o) -> arrayIndex k' = None ->
              arrayIndex k = None -> seen_before ks k' k) ->
  StronglySorted (own_order ks) (JsObject.keys o) ->
  StronglySorted (own_order ks) (JsObject.keys (JsObject.define k v o)).
Proof.
  unfold JsObject.define. destruct (arrayIndex k) as [n|] eqn:Ek.
  - intros Hk _. induction o as [|[k' w] o IH]; simpl; intros Hs.
    + constructor; constructor.
    + apply StronglySorted_inv in Hs. destruct Hs as [Hs Hall].
      assert (Hfront : own_order ks k k' ->
                StronglySorted (own_order ks) (k :: k' :: JsObject.keys o)).
      { intros Hkk'. constructor; [now constructor|].
        constructor; [assumption|].
        eapply Forall_impl; [|exact Hall]. intros x Hx.
        eapply own_order_index_trans; eauto. }
      destruct (arrayIndex k') as [m|] eqn:Ek'.
      * destruct (N.ltb_spec m n) as [Hlt|Hge]; simpl.
        -- constructor.
           ++ apply IH; [|assumption]. intros Hin. apply Hk. now right.
           ++ apply Forall_forall. intros x Hx.
              apply keys_insert_index_In in Hx; [|assumption].
              destruct Hx as [->|Hx].
              ** unfold own_order. now rewrite Ek', Ek.
              ** rewrite Forall_forall in Hall. now apply Hall.
        -- apply Hfront. unfold own_order. rewrite Ek, Ek'.
           assert (n <> m)
             by (intros ->; apply Hk; left; eapply arrayIndex_inj; eauto).
           lia.
      * apply Hfront. unfold own_order. now rewrite Ek, Ek'.
  - intros _ Hseen Hs. unfold JsObject.keys. rewrite map_app. simpl.
    apply StronglySorted_snoc; [assumption|].
    apply Forall_forall. intros x Hx. unfold own_order. rewrite Ek.
    destruct (arrayIndex x) eqn:Ex; [exact I|]. now apply Hseen.
Qed.

End ObjectFacts.

(** ** [groupBy] *)

Section GroupByFacts.
Context {A : Type} (f : A -> string).
Implicit Types (l : list A) (x : A) (k : string) (g : list A).

Lemma groupBy_snoc l x : groupBy f (l ++ [x]) = groupBy_step f (groupBy f l) x.
Proof.
  unfold groupBy. now rewrite fold_left_app.
Qed.

(** Induction along the loop of [groupBy]. *)
Lemma groupBy_ind (P : list A -> JsObject.t (list A) -> Prop) :
  P [] [] ->
  (forall l x, P l (groupBy f l) -> P (l ++ [x]) (groupBy_step f (groupBy f l) x)) ->
  forall l, P l (groupBy f l).
Proof.
  intros Hnil Hstep l. induction l as [|x l IH] using rev_ind.
  - exact Hnil.
  - rewrite groupBy_snoc. now apply Hstep.
Qed.

Lemma group_of_snoc k l x :
  group_of f k (l ++ [x]) =
  group_of f k l ++ (if String.eqb (f x) k then [x] else []).
Proof.
  unfold group_of. rewrite filter_app. simpl.
  now destruct (String.eqb (f x) k).
Qed.

(** The group stored under a key is the values with that key, in the
    collection's order; keys without a value are not properties. *)
Lemma groupBy_get l k :
  JsObject.get k (groupBy f l) =
  match group_of f k l with [] => None | g => Some g end.
Proof.
  revert k. apply (groupBy_ind (fun l o => forall k,
    JsObject.get k o = match group_of f k l with [] => None | g => Some g end)).
  - reflexivity.
  - clear l. intros l x IH k. unfold groupBy_step. rewrite group_of_snoc.
    destruct (JsObject.get (f x) (groupBy f l)) as [g|] eqn:Eg.
    + rewrite get_replace, Eg. simpl.
      destruct (String.eqb_spec (f x) k) as [<-|Hne].
      * rewrite IH in Eg. destruct (group_of f (f x) l); [discriminate|].
        now injection Eg as <-.
      * rewrite app_nil_r. apply IH.
    + rewrite get_define by assumption.
      destruct (String.eqb_spec (f x) k) as [<-|Hne].
      * rewrite IH in Eg. now destruct (group_of f (f x) l).
      * rewrite app_nil_r. apply IH.
Qed.

Lemma groupBy_NoDup l : NoDup (JsObject.keys (groupBy f l)).
Proof.
  apply (groupBy_ind (fun _ o => NoDup (JsObject.keys o))).
  - constructor.
  - clear l. intros l x IH. unfold groupBy_step.
    destruct (JsObject.get (f x) (groupBy f l)) as [g|] eqn:Eg.
    + now rewrite keys_replace.
    + apply (Permutation_NoDup
               (Permutation_sym (keys_define_perm (groupBy f l) (f x) [x]))).
      constructor; [|assumption]. now apply get_None.
Qed.

Lemma groupBy_keys_In l k :
  In k (JsObject.keys (groupBy f l)) <-> In k (map f l).
Proof.
  pose proof (groupBy_get l k) as Hg.
  split; intros H.
  - destruct (JsObject.get k (groupBy f l)) eqn:E.
    + destruct (group_of f k l) as [|y g] eqn:Eg; [discriminate|].
      assert (Hy : In y (group_of f k l)) by (rewrite Eg; now left).
      apply filter_In in Hy. destruct Hy as [Hy Ey].
      apply String.eqb_eq in Ey. subst k. now apply in_map.
    + now apply get_None in E.
  - apply in_map_iff in H. destruct H as (y & <- & Hy).
    destruct (JsObject.get (f y) (groupBy f l)) eqn:E.
    + apply get_In in E. change (f y) with (fst (f y, l0)). now apply in_map.
    + exfalso. destruct (group_of f (f y) l) eqn:Eg; [|discriminate].
      assert (Hin : In y (group_of f (f y) l)).
      { apply filter_In. split; [assumption|apply String.eqb_refl]. }
      now rewrite Eg in Hin.
Qed.

(** Every group is the values of its key, and holds at least one. *)
Lemma groupBy_In l k g :
  In (k, g) (groupBy f l) -> g = group_of f k l /\ g <> [].
Proof.
  intros H. apply In_get in H; [|apply groupBy_NoDup].
  rewrite groupBy_get in H.
  destruct (group_of f k l); [discriminate|].
  injection H as <-. split; [reflexivity|discriminate].
Qed.

Lemma groupBy_nonempty l k g :
  In (k, g) (groupBy f l) -> (1 <= List.length g)%nat.
Proof.
  intros H. apply groupBy_In in H. destruct H as [_ H].
  destruct g; [congruence|simpl; lia].
Qed.

Lemma groupBy_group l x :
  In x l -> In (f x, group_of f (f x) l) (groupBy f l).
Proof.
  intros Hx. apply get_In. rewrite groupBy_get.
  assert (Hin : In x (group_of f (f x) l)).
  { apply filter_In. split; [assumption|apply String.eqb_refl]. }
  destruct (group_of f (f x) l); [destruct Hin|reflexivity].
Qed.

(** The keys are listed as an object lists them. *)
Lemma groupBy_own_order l :
  StronglySorted (own_order (map f l)) (JsObject.keys (groupBy f l)).
Proof.
  apply (groupBy_ind (fun l o =>
    StronglySorted (own_order (map f l)) (JsObject.keys o))).
  - constructor.
  - clear l. intros l x IH. unfold groupBy_step. rewrite map_app. simpl.
    assert (IH' : StronglySorted (own_order (map f l ++ [f x]))
                    (JsObject.keys (groupBy f l))).
    { eapply StronglySorted_impl; [|exact IH]. intros a b. apply own_order_app. }
    destruct (JsObject.get (f x) (groupBy f l)) as [g|] eqn:Eg.
    + now rewrite keys_replace.
    + apply define_sorted; [now apply get_None| |assumption].
      intros k' Hk' _ _. apply seen_before_new.
      * now apply groupBy_keys_In.
      * intros Hin. apply groupBy_keys_In in Hin. now apply get_None in Eg.
Qed.

Lemma concat_replace (o : JsObject.t (list A)) k g x :
  JsObject.get k o = Some g ->
  Permutation (List.concat (map snd (JsObject.replace k (g ++ [x]) o)))
              (x :: List.concat (map snd o)).
Proof.
  induction o as [|[k' g'] o IH]; simpl; [discriminate|].
  destruct (String.eqb_spec k' k) as [->|Hne]; simpl.
  - intros [= ->]. rewrite <- app_assoc. simpl.
    symmetry. apply Permutation_middle.
  - intros H. rewrite (IH H).
    change (x :: List.concat (map snd o)) with ([x] ++ List.concat (map snd o)).
    rewrite app_assoc, (Permutation_app_comm g' [x]). reflexivity.
Qed.

(** Grouping loses no value and repeats none. *)
Lemma groupBy_partition l : Permutation (List.concat (map snd (groupBy f l))) l.
Proof.
  apply (groupBy_ind (fun l o => Permutation (List.concat (map snd o)) l)).
  - constructor.
  - clear l. intros l x IH. unfold groupBy_step.
    rewrite <- Permutation_cons_append.
    destruct (JsObject.get (f x) (groupBy f l)) as [g|] eqn:Eg.
    + rewrite concat_replace by eassumption. now constructor.
    + destruct (define_split (groupBy f l) (f x) [x]) as (o1 & o2 & E1 & ->).
      rewrite E1 in IH. rewrite map_app, concat_app in *. simpl.
      rewrite <- IH.
      change (x :: List.concat (map snd o2)) with ([x] ++ List.concat (map snd o2)).
      rewrite Permutation_app_comm. simpl.
      rewrite Permutation_app_comm. reflexivity.
Qed.

End GroupByFacts.

(** ** The growth pass *)

Lemma update_app {A : Type} (f : A -> A) (pre : list A) (x : A) (rest : list A) :
  update (List.length pre) f (pre ++ x :: rest) = pre ++ f x :: rest.
Proof.
  induction pre as [|y pre IH]; simpl; [reflexivity|now rewrite IH].
Qed.
Lemma growth_from_ext (p p' : YearlyData) (l : list YearlyData) :
  sales p = sales p' -> profit p = profit p' ->
  growth_from p l = growth_from p' l.
Proof.
  intros Hs Hp. destruct l as [|entry rest]; simpl; [reflexivity|].
  f_equal. unfold assign_growth. now rewrite Hs, Hp.
Qed.

Lemma growth_callback_snoc (pre : list YearlyData) (p entry : YearlyData)
  (rest : list YearlyData) :
  growth_callback ((pre ++ [p]) ++ entry :: rest) (List.length (pre ++ [p]))
  = (pre ++ [p]) ++ assign_growth p entry :: rest.
Proof.
  unfold growth_callback.
  assert (Hlen : List.length (pre ++ [p]) = S (List.length pre))
    by (rewrite length_app; simpl; lia).
  assert (Hprev : nth_error ((pre ++ [p]) ++ entry :: rest)
                    (List.length (pre ++ [p]) - 1) = Some p).
  { rewrite Hlen, <- app_assoc. simpl.
    rewrite Nat.sub_0_r, nth_error_app2, Nat.sub_diag by lia. reflexivity. }
  rewrite Hprev, update_app. now rewrite Hlen.
Qed.

Lemma growth_fold (suf : list YearlyData) :
  forall (pre : list YearlyData) (p : YearlyData),
  fold_left growth_callback
    (seq (List.length (pre ++ [p])) (List.length suf)) ((pre ++ [p]) ++ suf)
  = (pre ++ [p]) ++ growth_from p suf.
Proof.
  induction suf as [|entry rest IH]; intros pre p.
  - reflexivity.
  - cbn [List.length seq fold_left growth_from].
    rewrite growth_callback_snoc.
    replace ((pre ++ [p]) ++ assign_growth p entry :: rest)
      with (((pre ++ [p]) ++ [assign_growth p entry]) ++ rest)
      by (now rewrite <- (app_assoc (pre ++ [p]))).
    replace (S (List.length (pre ++ [p])))
      with (List.length ((pre ++ [p]) ++ [assign_growth p entry]))
      by (rewrite (length_app (pre ++ [p])); simpl; lia).
    rewrite IH, <- (app_assoc (pre ++ [p])). simpl.
    f_equal. f_equal. now apply growth_from_ext.
Qed.

(** The [forEach] of lines 96-101 is the scan [growth_pass]. *)
Lemma growth_forEach (g : list YearlyData) :
  fold_left growth_callback (seq 0 (List.length g)) g = growth_pass g.
Proof.
  destruct g as [|first rest]; [reflexivity|].
  simpl. unfold growth_callback at 2. simpl.
  exact (growth_fold rest [] first).
Qed.

Lemma yearlyStats_growth_pass (data : list Row) :
  yearlyStats data = growth_pass (yearlyStats_grouped data).
Proof.
  unfold yearlyStats. apply growth_forEach.
Qed.

Lemma growth_from_length (p : YearlyData) (l : list YearlyData) :
  List.length (growth_from p l) = List.length l.
Proof.
  revert p. induction l as [|x l IH]; intros p; simpl; [reflexivity|now rewrite IH].
Qed.

Lemma growth_from_nth (p : YearlyData) (l : list YearlyData) (i : nat) :
  nth_error (growth_from p l) i =
  match nth_error (p :: l) i, nth_error l i with
  | Some previous, Some entry => Some (assign_growth previous entry)
  | _, _ => None
  end.
Proof.
  revert p i. induction l as [|x l IH]; intros p [|i]; simpl; try reflexivity.
  - now destruct (nth_error [] i).
  - apply IH.
Qed.

(** Entry [i] of the result: the grouped entry, with growth computed from
    the grouped entry before it (none for the first). *)
Lemma growth_pass_nth (g : list YearlyData) (i : nat) :
  nth_error (growth_pass g) i =
  match i with
  | O => nth_error g 0
  | S j =>
      match nth_error g j, nth_error g (S j) with
      | Some previous, Some entry => Some (assign_growth previous entry)
      | _, _ => None
      end
  end.
Proof.
  destruct g as [|first rest].
  - destruct i as [|i]; [reflexivity|]. simpl. now destruct (nth_error [] i).
  - destruct i as [|i]; simpl; [reflexivity|]. apply growth_from_nth.
Qed.

Lemma growth_pass_map {B : Type} (field : YearlyData -> B) (g : list YearlyData) :
  (forall p entry, field (assign_growth p entry) = field entry) ->
  map field (growth_pass g) = map field g.
Proof.
  intros Hf. destruct g as [|first rest]; [reflexivity|]. simpl. f_equal.
  revert first. induction rest as [|x rest IH]; intros first; simpl; [reflexivity|].
  now rewrite Hf, IH.
Qed.

(** ** Comparing Numbers *)

Lemma SFcompare_rank (x y : spec_float) :
  Number.is_nan x = false -> Number.is_nan y = false ->
  SFcompare x y = Some (rank_compare (float_rank x) (float_rank y)).
Proof.
  destruct x as [sx|sx| |sx mx ex], y as [sy|sy| |sy my ey];
    try discriminate; intros _ _;
    try (destruct sx); try (destruct sy); try reflexivity; simpl.
  rewrite Z.compare_opp, (Z.compare_antisym ex ey).
  destruct (ex ?= ey)%Z; reflexivity.
Qed.

Lemma rank_compare_spec (a b : Z * Z * Z) :
  match rank_compare a b with
  | Lt => rank_lt a b
  | Eq => a = b
  | Gt => rank_lt b a
  end.
Proof.
  destruct a as [[a1 a2] a3], b as [[b1 b2] b3]. unfold rank_compare, rank_lt.
  destruct (Z.compare_spec a1 b1); try lia.
  destruct (Z.compare_spec a2 b2); try lia.
  destruct (Z.compare_spec a3 b3); try lia. congruence.
Qed.

Lemma rank_lt_irrefl (a : Z * Z * Z) : ~ rank_lt a a.
Proof. destruct a as [[a1 a2] a3]. unfold rank_lt. lia. Qed.

Lemma rank_lt_trans (a b c : Z * Z * Z) : rank_lt a b -> rank_lt b c -> rank_lt a c.
Proof.
  destruct a as [[a1 a2] a3], b as [[b1 b2] b3], c as [[c1 c2] c3].
  unfold rank_lt. lia.
Qed.

Lemma rank_lt_total (a b : Z * Z * Z) : rank_lt a b \/ a = b \/ rank_lt b a.
Proof.
  pose proof (rank_compare_spec a b). destruct (rank_compare a b); auto.
Qed.

Lemma compareAscending_rank (x y : spec_float) :
  Number.is_nan x = false -> Number.is_nan y = false ->
  compareAscending x y =
  match rank_compare (float_rank x) (float_rank y) with
  | Lt => (-1)%Z
  | Eq => 0%Z
  | Gt => 1%Z
  end.
Proof.
  intros Hx Hy. unfold compareAscending, Number.strict_neq, Number.gt, Number.lt,
    Number.reflexive, SFeqb, SFltb.
  rewrite (SFcompare_rank x y Hx Hy), (SFcompare_rank y x Hy Hx),
    (SFcompare_rank x x Hx Hx), (SFcompare_rank y y Hy Hy).
  pose proof (rank_compare_spec (float_rank x) (float_rank y)) as Hxy.
  pose proof (rank_compare_spec (float_rank y) (float_rank x)) as Hyx.
  pose proof (rank_compare_spec (float_rank x) (float_rank x)) as Hxx.
  pose proof (rank_compare_spec (float_rank y) (float_rank y)) as Hyy.
  destruct (rank_compare (float_rank x) (float_rank x));
    try (now apply rank_lt_irrefl in Hxx).
  destruct (rank_compare (float_rank y) (float_rank y));
    try (now apply rank_lt_irrefl in Hyy).
  clear Hxx Hyy.
  destruct (rank_compare (float_rank x) (float_rank y)),
           (rank_compare (float_rank y) (float_rank x)); simpl; try reflexivity;
    exfalso;
    try (rewrite Hyx in Hxy; now apply rank_lt_irrefl in Hxy);
    eapply rank_lt_irrefl, rank_lt_trans; eassumption.
Qed.

Lemma compareMultiple_le {A : Type} (a b : Sortable A) :
  Number.is_nan (criteria a) = false -> Number.is_nan (criteria b) = false ->
  (compareMultiple a b <= 0)%Z <-> sort_le a b.
Proof.
  intros Ha Hb. unfold compareMultiple, sort_le.
  rewrite (compareAscending_rank _ _ Ha Hb).
  pose proof (rank_compare_spec (float_rank (criteria a)) (float_rank (criteria b)))
    as Hc.
  destruct (rank_compare (float_rank (criteria a)) (float_rank (criteria b))); simpl.
  - split; [intros H; right; split; [assumption|lia]|].
    intros [H|[_ H]]; [|lia]. rewrite Hc in H. now apply rank_lt_irrefl in H.
  - split; [lia|]. intros [H|[H _]]; exfalso.
    + eapply rank_lt_irrefl, rank_lt_trans; eassumption.
    + rewrite H in Hc. now apply rank_lt_irrefl in Hc.
  - split; [now left|lia].
Qed.

Lemma sort_le_total {A : Type} (a b : Sortable A) : sort_le a b \/ sort_le b a.
Proof.
  unfold sort_le.
  destruct (rank_lt_total (float_rank (criteria a)) (float_rank (criteria b)))
    as [H|[H|H]]; auto.
  destruct (Nat.le_ge_cases (index a) (index b)); [left|right]; right; auto.
Qed.

Lemma sort_le_trans {A : Type} (a b c : Sortable A) :
  sort_le a b -> sort_le b c -> sort_le a c.
Proof.
  unfold sort_le. intros [H1|[E1 H1]] [H2|[E2 H2]].
  - left. eapply rank_lt_trans; eassumption.
  - left. now rewrite <- E2.
  - left. now rewrite E1.
  - right. split; [congruence|lia].
Qed.

(** ** Sorting *)

Section SortFacts.
Context {A : Type}.
Implicit Types (x : Sortable A) (l : list (Sortable A)).

Lemma sort_insert_perm (cmp : Sortable A -> Sortable A -> Z) x l :
  Permutation (sort_insert cmp x l) (x :: l).
Proof.
  induction l as [|y l IH]; simpl; [reflexivity|].
  destruct (cmp x y <=? 0)%Z; [reflexivity|].
  rewrite IH. apply perm_swap.
Qed.

Lemma sort_perm (cmp : Sortable A -> Sortable A -> Z) l :
  Permutation (sort cmp l) l.
Proof.
  induction l as [|y l IH]; simpl; [reflexivity|].
  rewrite sort_insert_perm. now constructor.
Qed.

Lemma sort_insert_sorted x l :
  comparable x -> Forall comparable l ->
  StronglySorted sort_le l -> StronglySorted sort_le (sort_insert compareMultiple x l).
Proof.
  intros Hx. induction l as [|y l IH]; simpl; intros Hl Hs.
  - constructor; constructor.
  - inversion Hl as [|? ? Hy Hl']; subst.
    apply StronglySorted_inv in Hs. destruct Hs as [Hs Hall].
    destruct (Z.leb_spec (compareMultiple x y) 0) as [Hle|Hgt].
    + apply compareMultiple_le in Hle; [|assumption..].
      constructor; [now constructor|]. constructor; [assumption|].
      eapply Forall_impl; [|exact Hall]. intros z. now apply sort_le_trans.
    + constructor; [now apply IH|].
      apply Forall_forall. intros z Hz.
      apply (Permutation_in _ (sort_insert_perm compareMultiple x l)) in Hz.
      destruct Hz as [<-|Hz].
      * destruct (sort_le_total y x) as [H|H]; [assumption|].
        apply compareMultiple_le in H; [lia|assumption..].
      * rewrite Forall_forall in Hall. now apply Hall.
Qed.

Lemma sort_sorted l :
  Forall comparable l -> StronglySorted sort_le (sort compareMultiple l).
Proof.
  induction l as [|y l IH]; simpl; intros Hl.
  - constructor.
  - inversion Hl; subst. apply sort_insert_sorted; auto.
    eapply Permutation_Forall; [|eassumption].
    symmetry. apply sort_perm.
Qed.

End SortFacts.

(** ** [orderBy] *)

Lemma StronglySorted_nth {A : Type} (R : A -> A -> Prop) (l : list A)
  (i j : nat) (a b : A) :
  StronglySorted R l -> (i < j)%nat ->
  nth_error l i = Some a -> nth_error l j = Some b -> R a b.
Proof.
  intros Hs. revert i j. induction Hs as [|x l Hs IH Hall]; intros i j Hij Ha Hb.
  - now destruct i.
  - destruct j as [|j]; [lia|]. simpl in Hb. destruct i as [|i]; simpl in Ha.
    + injection Ha as ->. rewrite Forall_forall in Hall.
      apply Hall. eapply nth_error_In; eassumption.
    + apply (IH i j); [lia|assumption..].
Qed.

Lemma NoDup_nth {A : Type} (l : list A) (i j : nat) (a : A) :
  NoDup l -> nth_error l i = Some a -> nth_error l j = Some a -> i = j.
Proof.
  intros Hnd Hi Hj. apply (proj1 (NoDup_nth_error l) Hnd); [|congruence].
  apply nth_error_Some. congruence.
Qed.

Lemma sorted_perm_unique {A : Type} (R : A -> A -> Prop) (l l' : list A) :
  (forall a b, In a l -> In b l -> R a b -> R b a -> a = b) ->
  StronglySorted R l -> StronglySorted R l' -> Permutation l l' -> l = l'.
Proof.
  intros Hanti Hs. revert l'.
  induction Hs as [|a l Hs IH Ha]; intros l' Hs' Hp.
  - now apply Permutation_nil in Hp.
  - destruct l' as [|b l']; [now apply Permutation_sym, Permutation_nil in Hp|].
    apply StronglySorted_inv in Hs'. destruct Hs' as [Hs' Hb].
    rewrite Forall_forall in Ha, Hb.
    assert (E : a = b).
    { assert (Hab : In a (b :: l'))
        by (eapply Permutation_in; [exact Hp|now left]).
      assert (Hba : In b (a :: l))
        by (eapply Permutation_in; [symmetry; exact Hp|now left]).
      destruct Hab as [->|Hab]; [reflexivity|].
      destruct Hba as [->|Hba]; [reflexivity|].
      apply Hanti; [now left|now right|now apply Ha|now apply Hb]. }
    subst b. f_equal. apply IH.
    + intros x y Hx Hy. apply Hanti; now right.
    + assumption.
    + eapply Permutation_cons_inv; eassumption.
Qed.

Section OrderByFacts.
Context {A : Type} (f : A -> spec_float).
Implicit Types (l : list A) (s : Sortable A).

Lemma with_index_In (from : nat) l s :
  In s (with_index f from l) ->
  criteria s = f (value s) /\ (from <= index s)%nat /\
  nth_error l (index s - from) = Some (value s).
Proof.
  revert from. induction l as [|v l IH]; intros from; simpl; [intros []|].
  intros [<-|Hin]; simpl.
  - rewrite Nat.sub_diag. auto.
  - destruct (IH _ Hin) as (Hc & Hle & Hn). split; [assumption|]. split; [lia|].
    replace (index s - from)%nat with (S (index s - S from)) by lia. exact Hn.
Qed.

Lemma with_index_NoDup (from : nat) l : NoDup (map index (with_index f from l)).
Proof.
  revert from. induction l as [|v l IH]; intros from; simpl; constructor.
  - intros Hin. apply in_map_iff in Hin. destruct Hin as (s & Es & Hs).
    apply with_index_In in Hs. lia.
  - apply IH.
Qed.

Lemma with_index_value (from : nat) l : map value (with_index f from l) = l.
Proof.
  revert from. induction l as [|v l IH]; intros from; simpl; [reflexivity|].
  now rewrite IH.
Qed.

Lemma with_index_comparable (from : nat) l :
  Forall (fun v => Number.is_nan (f v) = false) l ->
  Forall comparable (with_index f from l).
Proof.
  revert from. induction l as [|v l IH]; intros from Hl; simpl; constructor;
    inversion Hl; subst; auto.
Qed.

(** [orderBy] rearranges the collection. *)
Lemma orderBy_desc_perm l : Permutation (orderBy_desc f l) l.
Proof.
  unfold orderBy_desc. rewrite <- (with_index_value 0 l) at 2.
  apply Permutation_map, sort_perm.
Qed.

(** Two entries of the result, the first listed earlier: the first has the
    larger criterion, or an equal one and the earlier place in the collection. *)
Lemma orderBy_desc_order l (i j : nat) (a b : A) :
  Forall (fun v => Number.is_nan (f v) = false) l ->
  (i < j)%nat ->
  nth_error (orderBy_desc f l) i = Some a ->
  nth_error (orderBy_desc f l) j = Some b ->
  rank_lt (float_rank (f b)) (float_rank (f a)) \/
  (float_rank (f a) = float_rank (f b) /\
   exists p q, (p < q)%nat /\ nth_error l p = Some a /\ nth_error l q = Some b).
Proof.
  intros Hl Hij Ha Hb. unfold orderBy_desc in Ha, Hb.
  set (sorted := sort compareMultiple (with_index f 0 l)) in *.
  rewrite nth_error_map in Ha, Hb.
  destruct (nth_error sorted i) as [sa|] eqn:Ea; [|discriminate].
  destruct (nth_error sorted j) as [sb|] eqn:Eb; [|discriminate].
  injection Ha as <-. injection Hb as <-.
  assert (Hperm : Permutation sorted (with_index f 0 l)) by apply sort_perm.
  assert (Hsa : In sa (with_index f 0 l))
    by (eapply Permutation_in; [exact Hperm|eapply nth_error_In; eassumption]).
  assert (Hsb : In sb (with_index f 0 l))
    by (eapply Permutation_in; [exact Hperm|eapply nth_error_In; eassumption]).
  apply with_index_In in Hsa, Hsb.
  destruct Hsa as (Ca & _ & Na), Hsb as (Cb & _ & Nb).
  rewrite Nat.sub_0_r in Na, Nb.
  assert (Hsorted : StronglySorted sort_le sorted)
    by (apply sort_sorted, with_index_comparable, Hl).
  pose proof (StronglySorted_nth _ _ _ _ _ _ Hsorted Hij Ea Eb) as Hle.
  unfold sort_le in Hle. rewrite Ca, Cb in Hle.
  destruct Hle as [Hlt|[Heq Hidx]]; [now left|right].
  split; [assumption|]. exists (index sa), (index sb).
  split; [|now split].
  assert (Hne : index sa <> index sb).
  { intros E.
    assert (Hnd : NoDup (map index sorted)).
    { eapply Permutation_NoDup; [|apply (with_index_NoDup 0 l)].
      apply Permutation_map. now symmetry. }
    assert (i = j); [|lia].
    apply (NoDup_nth (map index sorted) i j (index sa) Hnd).
    - rewrite nth_error_map, Ea. reflexivity.
    - rewrite nth_error_map, Eb. simpl. now rewrite E. }
  lia.
Qed.

(** Whatever way the array is sorted, the result is the one of [sort]: the
    comparer admits one sorted arrangement only. *)
Lemma orderBy_desc_unique l (sorted : list (Sortable A)) :
  Forall (fun v => Number.is_nan (f v) = false) l ->
  Permutation sorted (with_index f 0 l) ->
  StronglySorted sort_le sorted ->
  map value sorted = orderBy_desc f l.
Proof.
  intros Hl Hperm Hsorted. unfold orderBy_desc. f_equal. symmetry.
  apply (sorted_perm_unique sort_le).
  - intros a b Ha Hb Hab Hba.
    apply (Permutation_in _ (sort_perm compareMultiple _)) in Ha, Hb.
    apply with_index_In in Ha, Hb.
    destruct Ha as (Ca & _ & Na), Hb as (Cb & _ & Nb).
    assert (Hi : index a = index b).
    { unfold sort_le in Hab, Hba.
      destruct Hab as [Hab|[Eab Hab]], Hba as [Hba|[Eba Hba]]; try lia; exfalso.
      - eapply rank_lt_irrefl, rank_lt_trans; eassumption.
      - rewrite Eba in Hab. now apply rank_lt_irrefl in Hab.
      - rewrite Eab in Hba. now apply rank_lt_irrefl in Hba. }
    rewrite Hi in Na. rewrite Na in Nb. injection Nb as Hv.
    destruct a as [ca ia va], b as [cb ib vb]. simpl in *. congruence.
  - apply sort_sorted, with_index_comparable, Hl.
  - assumption.
  - rewrite Hperm. apply sort_perm.
Qed.

End OrderByFacts.

(** In terms of [<] and [===]. *)
Lemma rank_lt_SFltb (x y : spec_float) :
  Number.is_nan x = false -> Number.is_nan y = false ->
  Number.lt x y = true <-> rank_lt (float_rank x) (float_rank y).
Proof.
  intros Hx Hy. unfold Number.lt, SFltb. rewrite (SFcompare_rank x y Hx Hy).
  pose proof (rank_compare_spec (float_rank x) (float_rank y)) as Hc.
  destruct (rank_compare (float_rank x) (float_rank y)).
  - split; [discriminate|]. rewrite Hc. intros H. now apply rank_lt_irrefl in H.
  - tauto.
  - split; [discriminate|]. intros H. exfalso.
    eapply rank_lt_irrefl, rank_lt_trans; eassumption.
Qed.

Lemma rank_eq_SFeqb (x y : spec_float) :
  Number.is_nan x = false -> Number.is_nan y = false ->
  SFeqb x y = true <-> float_rank x = float_rank y.
Proof.
  intros Hx Hy. unfold SFeqb. rewrite (SFcompare_rank x y Hx Hy).
  pose proof (rank_compare_spec (float_rank x) (float_rank y)) as Hc.
  destruct (rank_compare (float_rank x) (float_rank y)).
  - tauto.
  - split; [discriminate|]. intros E. rewrite E in Hc. now apply rank_lt_irrefl in Hc.
  - split; [discriminate|]. intros E. rewrite E in Hc. now apply rank_lt_irrefl in Hc.
Qed.

(** ** Arithmetic *)

Lemma hundred_finite : Number.hundred = S754_finite false 7036874417766400 (-46).
Proof. reflexivity. Qed.

(** Growth from a previous total of zero is never a finite figure. *)
Lemma growth_from_zero (cur prev : spec_float) :
  Number.is_zero prev = true ->
  Number.is_nan (growth cur prev) = true \/ Number.is_infinite (growth cur prev) = true.
Proof.
  destruct prev as [sp|sp| |sp mp ep]; try discriminate. intros _.
  unfold growth. rewrite hundred_finite.
  destruct cur as [sc|sc| |sc mc ec]; destruct sp; try destruct sc;
    simpl; auto.
Qed.

Lemma growth_zero_zero (cur prev : spec_float) :
  Number.is_zero prev = true -> Number.is_zero cur = true ->
  growth cur prev = S754_nan.
Proof.
  destruct prev as [sp| | |], cur as [sc| | |]; try discriminate.
  intros _ _. destruct sp, sc; reflexivity.
Qed.

Lemma same_value_refl (x : spec_float) : Number.same_value x x.
Proof. now left. Qed.

Lemma add_same_value (a b y : spec_float) :
  Number.same_value a b -> Number.same_value (Number.add a y) (Number.add b y).
Proof.
  intros [->|[Ha Hb]]; [now left|].
  destruct a as [sa| | |], b as [sb| | |]; try discriminate.
  destruct y as [sy|sy| |sy my ey]; try (now left).
  right. destruct sa, sb, sy; split; reflexivity.
Qed.

Lemma add_zero_same_value (y : spec_float) :
  Number.same_value y (Number.add Number.zero y).
Proof.
  destruct y as [sy|sy| |sy my ey]; try (now left).
  right. destruct sy; split; reflexivity.
Qed.

Lemma fold_add_same_value (xs : list spec_float) (a b : spec_float) :
  Number.same_value a b ->
  Number.same_value (fold_left Number.add xs a) (fold_left Number.add xs b).
Proof.
  revert a b. induction xs as [|x xs IH]; intros a b H; simpl; [assumption|].
  now apply IH, add_same_value.
Qed.

Lemma sumBy_fold {A : Type} (f : A -> spec_float) (x : A) (rest : list A) :
  sumBy (x :: rest) f = fold_left Number.add (map f rest) (f x).
Proof.
  simpl. generalize (f x). induction rest as [|y rest IH]; intros a; simpl;
    [reflexivity|apply IH].
Qed.

(** [sumBy] is the sum from zero, left to right (a zero may differ in sign). *)
Lemma sumBy_float_sum {A : Type} (f : A -> spec_float) (l : list A) :
  Number.same_value (sumBy l f) (float_sum (map f l)).
Proof.
  destruct l as [|x rest]; [now left|].
  rewrite sumBy_fold. unfold float_sum. simpl.
  apply fold_add_same_value, add_zero_same_value.
Qed.

Lemma digits2_iter (p k : positive) :
  digits2_pos (Pos.iter xO p k) = (digits2_pos p + k)%positive.
Proof.
  induction k as [|k IH] using Pos.peano_ind.
  - simpl. lia.
  - rewrite Pos.iter_succ. simpl. rewrite IH. lia.
Qed.

Lemma iter_pos_comm {A : Type} (f : A -> A) (n : positive) (x : A) :
  f (iter_pos f n x) = iter_pos f n (f x).
Proof.
  revert x. induction n as [n IH|n IH|]; intros x; simpl.
  - now rewrite !IH.
  - now rewrite !IH.
  - reflexivity.
Qed.

Lemma iter_pos_succ {A : Type} (f : A -> A) (n : positive) (x : A) :
  iter_pos f (Pos.succ n) x = f (iter_pos f n x).
Proof.
  revert x. induction n as [n IH|n IH|]; intros x; simpl.
  - rewrite !IH. now rewrite !iter_pos_comm.
  - now rewrite !iter_pos_comm.
  - reflexivity.
Qed.

(** Shifting out fewer bits than the mantissa has leaves a positive mantissa. *)
Lemma shr_1_positive (q : positive) (r s : bool) :
  (2 <= Z.pos (digits2_pos q))%Z ->
  exists q' r' s',
    shr_1 (Build_shr_record (Z.pos q) r s) = Build_shr_record (Z.pos q') r' s' /\
    (Z.pos (digits2_pos q') + 1 = Z.pos (digits2_pos q))%Z.
Proof.
  destruct q as [q|q|]; simpl; intros H.
  - exists q, true, (r || s). split; [reflexivity|lia].
  - exists q, false, (r || s). split; [reflexivity|lia].
  - lia.
Qed.

Lemma iter_shr_1_positive (n q : positive) (r s : bool) :
  (Z.pos n < Z.pos (digits2_pos q))%Z ->
  exists q' r' s',
    iter_pos shr_1 n (Build_shr_record (Z.pos q) r s)
      = Build_shr_record (Z.pos q') r' s' /\
    (Z.pos (digits2_pos q') + Z.pos n = Z.pos (digits2_pos q))%Z.
Proof.
  induction n as [|n IH] using Pos.peano_ind; intros Hn.
  - simpl iter_pos. destruct (shr_1_positive q r s) as (q' & r' & s' & E & Hd);
      [lia|]. exists q', r', s'. split; [exact E|lia].
  - rewrite iter_pos_succ.
    destruct IH as (q1 & r1 & s1 & E1 & Hd1); [lia|]. rewrite E1.
    destruct (shr_1_positive q1 r1 s1) as (q' & r' & s' & E & Hd); [lia|].
    exists q', r', s'. split; [exact E|lia].
Qed.

Lemma shr_fexp_positive (q : positive) (e : Z) (l : location) :
  (emin Number.prec Number.emax < Z.pos (digits2_pos q) + e)%Z ->
  exists q' r' s' e',
    shr_fexp Number.prec Number.emax (Z.pos q) e l
      = (Build_shr_record (Z.pos q') r' s', e') /\
    (Z.pos (digits2_pos q) + e = Z.pos (digits2_pos q') + e')%Z.
Proof.
  intros He. unfold shr_fexp, shr. simpl Zdigits2.
  set (n := (fexp Number.prec Number.emax (Z.pos (digits2_pos q) + e) - e)%Z).
  assert (Hn : (n < Z.pos (digits2_pos q))%Z).
  { unfold n, fexp, Number.prec in *. lia. }
  assert (Hrec : exists r s,
            shr_record_of_loc (Z.pos q) l = Build_shr_record (Z.pos q) r s).
  { destruct l as [|[| |]]; simpl; eauto. }
  destruct Hrec as (r & s & ->).
  destruct n as [|k|k] eqn:En.
  - exists q, r, s, e. split; [reflexivity|lia].
  - destruct (iter_shr_1_positive k q r s Hn) as (q' & r' & s' & E & Hd).
    exists q', r', s', (e + Z.pos k)%Z. rewrite E. split; [reflexivity|lia].
  - exists q, r, s, e. split; [reflexivity|lia].
Qed.

Lemma digits2_succ (q : positive) :
  (Z.pos (digits2_pos q) <= Z.pos (digits2_pos (Pos.succ q)))%Z.
Proof.
  induction q as [q IH|q IH|]; simpl; lia.
Qed.

Lemma round_nearest_even_positive (q : positive) (l : location) :
  exists q', round_nearest_even (Z.pos q) l = Z.pos q' /\
             (Z.pos (digits2_pos q) <= Z.pos (digits2_pos q'))%Z.
Proof.
  pose proof (digits2_succ q) as Hs.
  assert (E : (Z.pos q + 1)%Z = Z.pos (Pos.succ q)) by lia.
  unfold round_nearest_even.
  destruct l as [|[| |]]; try rewrite E; try destruct (Z.even (Z.pos q));
    try rewrite E; eexists; (split; [reflexivity|lia]).
Qed.

(** Rounding a mantissa that is not zero, above the smallest exponent, does
    not give zero. *)
Lemma binary_round_aux_nonzero (sx : bool) (q : positive) (e : Z) (l : location) :
  (emin Number.prec Number.emax < Z.pos (digits2_pos q) + e)%Z ->
  Number.is_zero (binary_round_aux Number.prec Number.emax sx (Z.pos q) e l) = false.
Proof.
  intros He. unfold binary_round_aux.
  destruct (shr_fexp_positive q e l He) as (q1 & r1 & s1 & e1 & -> & Hd1).
  cbn [shr_m].
  destruct (round_nearest_even_positive q1
              (loc_of_shr_record (Build_shr_record (Z.pos q1) r1 s1)))
    as (q2 & -> & Hd2).
  destruct (shr_fexp_positive q2 e1 loc_Exact) as (q3 & r3 & s3 & e3 & -> & _);
    [lia|].
  cbn [shr_m]. now destruct (e3 <=? Number.emax - Number.prec)%Z.
Qed.

Lemma of_Z_positive_nonzero (p : positive) :
  Number.is_zero (Number.of_Z (Z.pos p)) = false.
Proof.
  unfold Number.of_Z, binary_normalize, binary_round, shl_align.
  destruct (fexp Number.prec Number.emax (Z.pos (digits2_pos p) + 0) - 0)%Z
    as [|d|d] eqn:E.
  - apply binary_round_aux_nonzero. unfold emin, Number.prec, Number.emax. lia.
  - apply binary_round_aux_nonzero. unfold emin, Number.prec, Number.emax. lia.
  - apply binary_round_aux_nonzero. rewrite digits2_iter.
    unfold fexp, emin, Number.prec, Number.emax in *. lia.
Qed.

(** A count of at least one is not zero as a Number. *)
Lemma of_nat_nonzero (n : nat) :
  (1 <= n)%nat -> Number.is_zero (Number.of_nat n) = false.
Proof.
  intros H1. unfold Number.of_nat.
  destruct (Z.of_nat n) as [|p|p] eqn:E; try lia.
  apply of_Z_positive_nonzero.
Qed.

(** ** The yearly entries *)

Lemma StronglySorted_map_In {A B : Type} (R' : A -> A -> Prop) (R : B -> B -> Prop)
  (f : A -> B) (l : list A) :
  (forall a b, In a l -> In b l -> R' a b -> R (f a) (f b)) ->
  StronglySorted R' l -> StronglySorted R (map f l).
Proof.
  intros HR Hs. induction Hs as [|a l Hs IH Hall]; simpl; constructor.
  - apply IH. intros x y Hx Hy. apply HR; now right.
  - apply Forall_forall. intros y Hy. apply in_map_iff in Hy.
    destruct Hy as (b & <- & Hb). rewrite Forall_forall in Hall.
    apply HR; [now left|now right|now apply Hall].
Qed.

Lemma yearlyStats_grouped_years (data : list Row) :
  map year (yearlyStats_grouped data)
  = map parseInt (JsObject.keys (groupBy yearKey data)).
Proof.
  unfold yearlyStats_grouped, JsObject.keys. rewrite !map_map.
  apply map_ext. now intros [k g].
Qed.

Lemma yearlyStats_years (data : list Row) :
  map year (yearlyStats data) = map year (yearlyStats_grouped data).
Proof.
  rewrite yearlyStats_growth_pass. now apply growth_pass_map.
Qed.

Lemma parseInt_yearKey (row : Row) :
  parseInt (yearKey row) = getFullYear (Order_Date row).
Proof. apply parseInt_ToString. Qed.

(** The yearly entries are listed as the grouping object lists its keys. *)
Lemma yearlyStats_key_order (data : list Row) :
  StronglySorted (own_order (map yearKey data))
    (map (fun entry => ToString (year entry)) (yearlyStats data)).
Proof.
  assert (E : map (fun entry => ToString (year entry)) (yearlyStats data)
              = JsObject.keys (groupBy yearKey data)).
  { rewrite <- (map_map year ToString), yearlyStats_years,
      yearlyStats_grouped_years, map_map.
    rewrite <- (map_id (JsObject.keys (groupBy yearKey data))) at 2.
    apply map_ext_in. intros k Hk.
    apply (proj1 (groupBy_keys_In yearKey data k)), in_map_iff in Hk.
    destruct Hk as (row & <- & _). now rewrite parseInt_yearKey. }
  rewrite E. apply groupBy_own_order.
Qed.

(** Where an object lists the key of one row before the key of another, the
    first row's year is the smaller one. *)
Lemma own_order_years (data : list Row) (r1 r2 : Row) :
  no_negative_year data -> In r1 data -> In r2 data ->
  own_order (map yearKey data) (yearKey r1) (yearKey r2) ->
  year_before (getFullYear (Order_Date r1)) (getFullYear (Order_Date r2)).
Proof.
  intros Hdata H1 H2. unfold own_order, yearKey.
  destruct (Order_Date r1) as [|y1] eqn:E1, (Order_Date r2) as [|y2] eqn:E2; simpl.
  - intros (p1 & p2 & Hp1 & Hp2 & Hlt).
    change (String "N" (String "a" (String "N" EmptyString))) with "NaN" in *.
    rewrite Hp1 in Hp2. injection Hp2 as ->. lia.
  - pose proof (Hdata r2 y2 H2 E2) as Hy2.
    change (NilEmpty.string_of_int (Z.to_int y2)) with (ToString (Int y2)).
    now rewrite (arrayIndex_ToString y2 Hy2).
  - trivial.
  - pose proof (Hdata r1 y1 H1 E1) as Hy1. pose proof (Hdata r2 y2 H2 E2) as Hy2.
    change (NilEmpty.string_of_int (Z.to_int y1)) with (ToString (Int y1)).
    change (NilEmpty.string_of_int (Z.to_int y2)) with (ToString (Int y2)).
    rewrite (arrayIndex_ToString y1 Hy1), (arrayIndex_ToString y2 Hy2). lia.
Qed.

(** The grouped entries are in ascending year order as they come out of
    [groupBy], before the growth pass reads them. *)
Lemma yearlyStats_grouped_sorted (data : list Row) :
  no_negative_year data ->
  StronglySorted year_before (map year (yearlyStats_grouped data)).
Proof.
  intros Hdata. rewrite yearlyStats_grouped_years.
  apply (StronglySorted_map_In (own_order (map yearKey data))).
  - intros k1 k2 Hk1 Hk2 Hord.
    apply (proj1 (groupBy_keys_In yearKey data k1)), in_map_iff in Hk1.
    apply (proj1 (groupBy_keys_In yearKey data k2)), in_map_iff in Hk2.
    destruct Hk1 as (r1 & <- & Hr1), Hk2 as (r2 & <- & Hr2).
    rewrite !parseInt_yearKey. now apply (own_order_years data).
  - apply groupBy_own_order.
Qed.

Lemma yearlyStats_first (data : list Row) (first : YearlyData) :
  nth_error (yearlyStats data) 0 = Some first ->
  salesGrowth first = Number.zero /\ profitGrowth first = Number.zero.
Proof.
  rewrite yearlyStats_growth_pass, growth_pass_nth.
  unfold yearlyStats_grouped. rewrite nth_error_map.
  destruct (nth_error (groupBy yearKey data) 0) as [[k g]|]; [|discriminate].
  intros [= <-]. split; reflexivity.
Qed.

(** Growth is computed from the entry listed just before. *)
Lemma yearlyStats_adjacent (data : list Row) (i : nat) (previous entry : YearlyData) :
  nth_error (yearlyStats data) i = Some previous ->
  nth_error (yearlyStats data) (S i) = Some entry ->
  salesGrowth entry = growth (sales entry) (sales previous) /\
  profitGrowth entry = growth (profit entry) (profit previous).
Proof.
  rewrite yearlyStats_growth_pass, !growth_pass_nth.
  set (g := yearlyStats_grouped data).
  intros Hp He.
  destruct (nth_error g i) as [p|] eqn:Ep; [|discriminate].
  destruct (nth_error g (S i)) as [e|]; [|discriminate].
  injection He as <-.
  assert (Hs : sales previous = sales p /\ profit previous = profit p).
  { destruct i as [|j].
    - rewrite Ep in Hp. injection Hp as <-. auto.
    - rewrite Ep in Hp. destruct (nth_error g j); [|discriminate].
      injection Hp as <-. auto. }
  destruct Hs as [-> ->]. split; reflexivity.
Qed.

(** ** The trend rows *)

Section SetFacts.
Context {V : Type}.
Implicit Types (o : list (string * V)) (k : string) (v : V).

Lemma get_set o k v k' :
  JsObject.get k' (JsObject.set k v o) =
  if String.eqb k k' then Some v else JsObject.get k' o.
Proof.
  unfold JsObject.set, JsObject.has.
  destruct (JsObject.get k o) eqn:E.
  - rewrite get_replace, E. reflexivity.
  - now apply get_define.
Qed.

Lemma set_NoDup o k v :
  NoDup (JsObject.keys o) -> NoDup (JsObject.keys (JsObject.set k v o)).
Proof.
  intros Hnd. unfold JsObject.set, JsObject.has.
  destruct (JsObject.get k o) eqn:E.
  - now rewrite keys_replace.
  - apply (Permutation_NoDup (Permutation_sym (keys_define_perm o k v))).
    constructor; [now apply get_None|assumption].
Qed.

Lemma has_In o k : JsObject.has k o = true <-> In k (JsObject.keys o).
Proof.
  unfold JsObject.has. destruct (JsObject.get k o) eqn:E.
  - split; [intros _|reflexivity].
    apply get_In in E. change k with (fst (k, v)). now apply in_map.
  - split; [discriminate|]. intros H. now apply get_None in E.
Qed.

End SetFacts.

(** Assigning the properties of one object to another, in order. *)
Lemma fold_set_NoDup {V W : Type} (g : V -> W) (src : list (string * V))
  (init : list (string * W)) :
  NoDup (JsObject.keys init) ->
  NoDup (JsObject.keys
           (fold_left (fun row '(k, x) => JsObject.set k (g x) row) src init)).
Proof.
  revert init. induction src as [|[k x] src IH]; intros init Hnd; simpl.
  - assumption.
  - now apply IH, set_NoDup.
Qed.

Lemma fold_set_get {V W : Type} (g : V -> W) (src : list (string * V))
  (init : list (string * W)) (s : string) :
  NoDup (JsObject.keys src) ->
  JsObject.get s (fold_left (fun row '(k, x) => JsObject.set k (g x) row) src init)
  = match JsObject.get s src with
    | Some x => Some (g x)
    | None => JsObject.get s init
    end.
Proof.
  revert init. induction src as [|[k x] src IH]; intros init Hnd; simpl.
  - reflexivity.
  - inversion Hnd as [|? ? Hk Hnd']; subst. rewrite (IH _ Hnd'), get_set.
    destruct (String.eqb_spec k s) as [->|Hne]; [|reflexivity].
    apply get_None in Hk. now rewrite Hk.
Qed.

Lemma mapValues_get {V W : Type} (g : V -> W) (o : list (string * V)) (s : string) :
  NoDup (JsObject.keys o) ->
  JsObject.get s (mapValues g o) = option_map g (JsObject.get s o).
Proof.
  intros Hnd. unfold mapValues. rewrite (fold_set_get g o [] s Hnd).
  now destruct (JsObject.get s o).
Qed.

Lemma mapValues_NoDup {V W : Type} (g : V -> W) (o : list (string * V)) :
  NoDup (JsObject.keys (mapValues g o)).
Proof.
  unfold mapValues. apply (fold_set_NoDup g o []). constructor.
Qed.

(** What a trend row holds under a key: the sum of the year's sales in that
    sub-category, if the year has any; the year itself under [year], unless a
    sub-category of that name has overwritten it. *)
Lemma trendRow_get (key : string) (yearData : list Row) (s : string) :
  JsObject.get s (trendRow key yearData) =
  match group_of Sub_Category s yearData with
  | [] => if String.eqb "year" s then Some (YearValue (parseInt key)) else None
  | subCatData => Some (SalesValue (sumBy subCatData Sales))
  end.
Proof.
  unfold trendRow.
  rewrite (fold_set_get SalesValue) by apply mapValues_NoDup.
  rewrite mapValues_get by apply groupBy_NoDup.
  rewrite groupBy_get.
  destruct (group_of Sub_Category s yearData); reflexivity.
Qed.

Lemma trendRow_has (key : string) (yearData : list Row) (s : string) :
  s <> "year" ->
  JsObject.has s (trendRow key yearData) = true <->
  exists row, In row yearData /\ Sub_Category row = s.
Proof.
  intros Hs. unfold JsObject.has. rewrite trendRow_get.
  destruct (group_of Sub_Category s yearData) as [|r g] eqn:E.
  - destruct (String.eqb_spec "year" s) as [<-|_]; [congruence|].
    split; [discriminate|]. intros (row & Hin & Hrow). exfalso.
    assert (H : In row (group_of Sub_Category s yearData)).
    { apply filter_In. split; [assumption|now apply String.eqb_eq]. }
    now rewrite E in H.
  - split; [intros _|reflexivity]. exists r.
    assert (H : In r (group_of Sub_Category s yearData)) by (rewrite E; now left).
    apply filter_In in H. destruct H as [Hin Hr].
    split; [assumption|now apply String.eqb_eq].
Qed.

Lemma trendRow_year (key : string) (yearData : list Row) :
  (forall row, In row yearData -> Sub_Category row <> "year") ->
  trend_year (trendRow key yearData) = Some (YearValue (parseInt key)).
Proof.
  intros Hno. unfold trend_year. rewrite trendRow_get.
  destruct (group_of Sub_Category "year" yearData) as [|r g] eqn:E; [reflexivity|].
  exfalso.
  assert (H : In r (group_of Sub_Category "year" yearData)) by (rewrite E; now left).
  apply filter_In in H. destruct H as [Hin Hr]. apply String.eqb_eq in Hr.
  now apply (Hno r).
Qed.

Lemma group_of_In {A : Type} (f : A -> string) (k : string) (l : list A) (x : A) :
  In x (group_of f k l) <-> In x l /\ f x = k.
Proof.
  unfold group_of. rewrite filter_In. now rewrite String.eqb_eq.
Qed.

Lemma trend_years (data : list Row) :
  (forall row, In row data -> Sub_Category row <> "year") ->
  map trend_year (subCategoryTrendsData data)
  = map (fun y => Some (YearValue y)) (map year (yearlyStats data)).
Proof.
  intros Hno. rewrite yearlyStats_years.
  unfold subCategoryTrendsData, yearlyStats_grouped. rewrite !map_map.
  apply map_ext_in. intros [k g] Hin. simpl.
  apply trendRow_year. intros row Hrow.
  apply groupBy_In in Hin. destruct Hin as [-> _].
  apply group_of_In in Hrow. now apply Hno.
Qed.

(** ** Entries and the groups they come from *)

Lemma growth_pass_fields (g : list YearlyData) (i : nat) (entry : YearlyData) :
  nth_error (growth_pass g) i = Some entry ->
  exists grouped,
    nth_error g i = Some grouped /\
    year entry = year grouped /\ sales entry = sales grouped /\
    profit entry = profit grouped /\ orders entry = orders grouped /\
    avgOrderValue entry = avgOrderValue grouped.
Proof.
  rewrite growth_pass_nth. destruct i as [|j].
  - intros H. exists entry. auto 10.
  - destruct (nth_error g j); [|discriminate].
    destruct (nth_error g (S j)) as [e|]; [|discriminate].
    intros [= <-]. exists e. auto 10.
Qed.

Lemma growth_pass_keeps (g : list YearlyData) (i : nat) (grouped : YearlyData) :
  nth_error g i = Some grouped ->
  exists entry,
    nth_error (growth_pass g) i = Some entry /\
    year entry = year grouped /\ sales entry = sales grouped /\
    profit entry = profit grouped /\ orders entry = orders grouped.
Proof.
  intros H. rewrite growth_pass_nth. destruct i as [|j].
  - exists grouped. auto 10.
  - rewrite H. destruct (nth_error g j) as [p|] eqn:Ep.
    + exists (assign_growth p grouped). auto 10.
    + apply nth_error_None in Ep.
      assert (S j < List.length g)%nat by (apply nth_error_Some; congruence). lia.
Qed.

(** Every yearly entry is made from one group of [groupBy]. *)
Lemma yearlyStats_In (data : list Row) (entry : YearlyData) :
  In entry (yearlyStats data) ->
  exists key yearData,
    In (key, yearData) (groupBy yearKey data) /\
    year entry = parseInt key /\
    sales entry = sumBy yearData Sales /\
    profit entry = sumBy yearData Profit /\
    orders entry = List.length yearData /\
    avgOrderValue entry =
      Number.div (sumBy yearData Sales) (Number.of_nat (List.length yearData)).
Proof.
  intros Hin. apply In_nth_error in Hin. destruct Hin as [i Hi].
  rewrite yearlyStats_growth_pass in Hi. apply growth_pass_fields in Hi.
  destruct Hi as (grouped & Hg & Hy & Hs & Hp & Ho & Ha).
  unfold yearlyStats_grouped in Hg. rewrite nth_error_map in Hg.
  destruct (nth_error (groupBy yearKey data) i) as [[key yearData]|] eqn:E;
    [|discriminate].
  injection Hg as <-. exists key, yearData.
  split; [eapply nth_error_In; eassumption|]. auto 10.
Qed.

Lemma yearlyStats_of_group (data : list Row) (key : string) (yearData : list Row) :
  In (key, yearData) (groupBy yearKey data) ->
  exists entry,
    In entry (yearlyStats data) /\ year entry = parseInt key /\
    orders entry = List.length yearData /\ sales entry = sumBy yearData Sales.
Proof.
  intros Hin. apply In_nth_error in Hin. destruct Hin as [i Hi].
  assert (Hg : nth_error (yearlyStats_grouped data) i
               = Some (yearlyEntry key yearData)).
  { unfold yearlyStats_grouped. rewrite nth_error_map, Hi. reflexivity. }
  apply growth_pass_keeps in Hg. destruct Hg as (entry & He & Hy & Hs & _ & Ho).
  exists entry. rewrite yearlyStats_growth_pass.
  split; [eapply nth_error_In; eassumption|]. auto.
Qed.

Lemma subCategoryStats_In (data : list Row) (s : SubCategoryData.t) :
  In s (subCategoryStats data) <->
  exists key subCatData,
    In (key, subCatData) (groupBy Sub_Category data) /\
    s = subCategoryEntry key subCatData.
Proof.
  unfold subCategoryStats. split.
  - intros Hin. apply (Permutation_in _ (orderBy_desc_perm _ _)) in Hin.
    unfold subCategoryStats_grouped in Hin. apply in_map_iff in Hin.
    destruct Hin as ([key g] & <- & Hin). now exists key, g.
  - intros (key & g & Hin & ->).
    apply (Permutation_in _ (Permutation_sym (orderBy_desc_perm _ _))).
    unfold subCategoryStats_grouped. apply in_map_iff. now exists (key, g).
Qed.

Lemma rank_le_SFleb (x y : spec_float) :
  Number.is_nan x = false -> Number.is_nan y = false ->
  SFleb x y = true <->
  rank_lt (float_rank x) (float_rank y) \/ float_rank x = float_rank y.
Proof.
  intros Hx Hy. unfold SFleb. rewrite (SFcompare_rank x y Hx Hy).
  pose proof (rank_compare_spec (float_rank x) (float_rank y)) as Hc.
  destruct (rank_compare (float_rank x) (float_rank y)).
  - tauto.
  - tauto.
  - split; [discriminate|]. intros [H|H]; exfalso.
    + eapply rank_lt_irrefl, rank_lt_trans; eassumption.
    + rewrite H in Hc. now apply rank_lt_irrefl in Hc.
Qed.

(** * The claims *)

(** ** C1: the aggregate of an empty dataset *)

(** C1, as stated, fails: on the empty collection [loadData] reports no
    error, and the average order value it stores is [NaN] (0 / 0). *)
Lemma empty_dataset_counterexample :
  error (loadData (fetched [])) = None /\
  TotalMetrics.avgOrderValue (totalMetrics (loadData (fetched []))) = S754_nan.
Proof.
  split; reflexivity.
Qed.

(** C1, amended: when the fetch succeeds and the parse yields no error and
    no row, [loadData] finishes without an error; it stores total sales 0,
    total profit 0, total orders 0 and the average order value [NaN], and
    three empty lists. *)
Theorem empty_dataset_aggregate (response : Fetched) :
  ok response = true ->
  ParseResult.errors (parsedData response) = [] ->
  ParseResult.data (parsedData response) = [] ->
  error (loadData response) = None /\
  totalMetrics (loadData response)
    = TotalMetrics.mk Number.zero Number.zero 0 S754_nan /\
  yearlyData (loadData response) = [] /\
  subCategoryData (loadData response) = [] /\
  subCategoryTrends (loadData response) = [].
Proof.
  intros Hok Herr Hdata. unfold loadData. rewrite Hok, Herr, Hdata.
  repeat split; reflexivity.
Qed.

Lemma empty_dataset_aggregate_witness :
  error (loadData (fetched [])) = None /\
  totalMetrics (loadData (fetched []))
    = TotalMetrics.mk Number.zero Number.zero 0 S754_nan /\
  yearlyData (loadData (fetched [])) = [] /\
  subCategoryData (loadData (fetched [])) = [] /\
  subCategoryTrends (loadData (fetched [])) = [].
Proof.
  apply (empty_dataset_aggregate (fetched [])); reflexivity.
Defined.

(** ** C2: growth after a year whose total is zero *)

(** C2, as stated, fails: with sales 0 in 2020 and 100 in 2021, and profit 0
    in both, the entry of 2021 holds sales growth [Infinity] and profit
    growth [NaN]. *)
Lemma zero_previous_year_counterexample :
  map (fun entry => (year entry, salesGrowth entry, profitGrowth entry))
      (yearlyStats
         [mkRow (ValidDate 2020) Number.zero Number.zero "Chairs";
          mkRow (ValidDate 2021) (Number.of_Z 100) Number.zero "Chairs"])
  = [(Int 2020, Number.zero, Number.zero);
     (Int 2021, S754_infinity false, S754_nan)].
Proof.
  reflexivity.
Qed.

(** C2, amended: the division is not guarded.  When the total of the entry
    listed just before is zero, the growth stored is never a finite number:
    it is [NaN] or an infinity (and [NaN] when the year's own total is zero
    too). *)
Theorem growth_after_zero_total (data : list Row) (i : nat)
  (previous entry : YearlyData) :
  nth_error (yearlyStats data) i = Some previous ->
  nth_error (yearlyStats data) (S i) = Some entry ->
  (Number.is_zero (sales previous) = true ->
   (Number.is_nan (salesGrowth entry) = true \/
    Number.is_infinite (salesGrowth entry) = true) /\
   (Number.is_zero (sales entry) = true -> salesGrowth entry = S754_nan)) /\
  (Number.is_zero (profit previous) = true ->
   (Number.is_nan (profitGrowth entry) = true \/
    Number.is_infinite (profitGrowth entry) = true) /\
   (Number.is_zero (profit entry) = true -> profitGrowth entry = S754_nan)).
Proof.
  intros Hp He.
  destruct (yearlyStats_adjacent data i previous entry Hp He) as [-> ->].
  split; intros Hz; (split; [now apply growth_from_zero|]);
    intros Hz'; now apply growth_zero_zero.
Qed.

Lemma growth_after_zero_total_witness :
  let data :=
    [mkRow (ValidDate 2020) Number.zero Number.zero "Chairs";
     mkRow (ValidDate 2021) (Number.of_Z 100) Number.zero "Chairs"] in
  let ys := yearlyStats data in
  let none := yearlyEntry "" [] in
  Number.is_zero (sales (nth 0 ys none)) = true /\
  (Number.is_nan (salesGrowth (nth 1 ys none)) = true \/
   Number.is_infinite (salesGrowth (nth 1 ys none)) = true).
Proof.
  intros data ys none. split; [reflexivity|].
  exact (proj1 (proj1
    (growth_after_zero_total data 0 (nth 0 ys none) (nth 1 ys none)
       eq_refl eq_refl)
    eq_refl)).
Defined.

(** ** C3: growth of the first year and of the later years *)

(** C3, as stated, fails: with one row dated 2020 and one dated in the
    year -43 (say [-000043-03-15]), the entry of 2020 is listed first and
    keeps growth 0, and the earliest year, -43, is listed second with sales
    growth -50 computed from 2020. *)
Lemma earliest_year_counterexample :
  map (fun entry => (year entry, salesGrowth entry))
      (yearlyStats
         [mkRow (ValidDate 2020) (Number.of_Z 100) (Number.of_Z 10) "Chairs";
          mkRow (ValidDate (-43)) (Number.of_Z 50) (Number.of_Z 5) "Chairs"])
  = [(Int 2020, Number.zero); (Int (-43), Number.of_Z (-50))].
Proof.
  reflexivity.
Qed.

(** C3, amended: when no row is dated before the year 0, the yearly entries
    are listed in ascending year order (an entry for rows whose date is
    invalid, year [NaN], last); the first entry has sales and profit growth 0;
    every later entry has growth [(total - previous total) / previous total *
    100], computed in binary64 from the entry listed just before it. *)
Theorem yearly_growth_from_previous (data : list Row) :
  no_negative_year data ->
  StronglySorted year_before (map year (yearlyStats data)) /\
  (forall first,
     nth_error (yearlyStats data) 0 = Some first ->
     salesGrowth first = Number.zero /\ profitGrowth first = Number.zero) /\
  (forall i previous entry,
     nth_error (yearlyStats data) i = Some previous ->
     nth_error (yearlyStats data) (S i) = Some entry ->
     year_before (year previous) (year entry) /\
     salesGrowth entry = growth (sales entry) (sales previous) /\
     profitGrowth entry = growth (profit entry) (profit previous)).
Proof.
  intros Hdata.
  assert (Hsorted : StronglySorted year_before (map year (yearlyStats data))).
  { rewrite yearlyStats_years. now apply yearlyStats_grouped_sorted. }
  split; [exact Hsorted|]. split; [apply yearlyStats_first|].
  intros i previous entry Hp He. split; [|now apply (yearlyStats_adjacent data i)].
  apply (StronglySorted_nth year_before (map year (yearlyStats data)) i (S i));
    [assumption|lia| |]; rewrite nth_error_map.
  - now rewrite Hp.
  - now rewrite He.
Qed.

Lemma yearly_growth_from_previous_witness :
  no_negative_year
    [mkRow (ValidDate 2020) (Number.of_Z 100) (Number.of_Z 10) "Chairs";
     mkRow (ValidDate 2021) (Number.of_Z 150) (Number.of_Z 20) "Chairs"] /\
  StronglySorted year_before
    (map year
       (yearlyStats
          [mkRow (ValidDate 2020) (Number.of_Z 100) (Number.of_Z 10) "Chairs";
           mkRow (ValidDate 2021) (Number.of_Z 150) (Number.of_Z 20) "Chairs"])).
Proof.
  assert (H : no_negative_year
    [mkRow (ValidDate 2020) (Number.of_Z 100) (Number.of_Z 10) "Chairs";
     mkRow (ValidDate 2021) (Number.of_Z 150) (Number.of_Z 20) "Chairs"]).
  { intros row y [<-|[<-|[]]] [= <-]; lia. }
  split; [exact H|].
  exact (proj1 (yearly_growth_from_previous _ H)).
Defined.

(** ** C4: the order of the yearly entries and of the trend rows *)

(** C4, as stated, fails: no sort is performed, and the key [-43] is not an
    array index.  With one row dated 2020 and one dated in the year -43, both
    lists hold 2020 before -43.  And where a row of 2020 has the sub-category
    [year], the trend row of 2020 holds its sales, 5000, as the year. *)
Lemma unsorted_years_counterexample :
  let data :=
    [mkRow (ValidDate 2020) (Number.of_Z 100) (Number.of_Z 10) "Chairs";
     mkRow (ValidDate (-43)) (Number.of_Z 50) (Number.of_Z 5) "Tables"] in
  let named_year :=
    [mkRow (ValidDate 2020) (Number.of_Z 5000) (Number.of_Z 10) "year";
     mkRow (ValidDate 2021) (Number.of_Z 50) (Number.of_Z 5) "Tables"] in
  map year (yearlyStats data) = [Int 2020; Int (-43)] /\
  map trend_year (subCategoryTrendsData data)
    = [Some (YearValue (Int 2020)); Some (YearValue (Int (-43)))] /\
  map trend_year (subCategoryTrendsData named_year)
    = [Some (SalesValue (Number.of_Z 5000)); Some (YearValue (Int 2021))].
Proof.
  repeat split; reflexivity.
Qed.

(** C4, amended: the yearly entries are listed as the grouping object lists
    its keys: the years that are array indices (0 to 4294967294) ascending,
    then the other years and [NaN] as first met; the growth pass reads that
    list as it is.  So when no row is dated before the year 0, the yearly
    entries are in ascending year order (an entry with year [NaN], for rows
    whose date is invalid, last) before any growth is computed; and when
    moreover no row's sub-category is the string [year], the trend rows carry
    the same years in the same order. *)
Theorem years_ascending (data : list Row) :
  StronglySorted (own_order (map yearKey data))
    (map (fun entry => ToString (year entry)) (yearlyStats data)) /\
  yearlyStats data = growth_pass (yearlyStats_grouped data) /\
  map year (yearlyStats data) = map year (yearlyStats_grouped data) /\
  (no_negative_year data ->
   StronglySorted year_before (map year (yearlyStats_grouped data)) /\
   StronglySorted year_before (map year (yearlyStats data)) /\
   ((forall row, In row data -> Sub_Category row <> "year") ->
    map trend_year (subCategoryTrendsData data)
      = map (fun y => Some (YearValue y)) (map year (yearlyStats data)) /\
    List.length (subCategoryTrendsData data) = List.length (yearlyStats data))).
Proof.
  split; [apply yearlyStats_key_order|].
  split; [apply yearlyStats_growth_pass|].
  split; [apply yearlyStats_years|].
  intros Hdata.
  pose proof (yearlyStats_grouped_sorted data Hdata) as Hsorted.
  split; [exact Hsorted|].
  split; [now rewrite yearlyStats_years|].
  intros Hno.
  pose proof (trend_years data Hno) as Htrend.
  split; [exact Htrend|].
  rewrite <- (length_map trend_year (subCategoryTrendsData data)), Htrend.
  now rewrite !length_map.
Qed.

Lemma years_ascending_witness :
  let data :=
    [mkRow (ValidDate 2021) (Number.of_Z 150) (Number.of_Z 20) "Chairs";
     mkRow (ValidDate 2020) (Number.of_Z 100) (Number.of_Z 10) "Tables"] in
  no_negative_year data /\
  (forall row, In row data -> Sub_Category row <> "year") /\
  map year (yearlyStats data) = [Int 2020; Int 2021] /\
  StronglySorted year_before (map year (yearlyStats data)) /\
  map trend_year (subCategoryTrendsData data)
    = map (fun y => Some (YearValue y)) (map year (yearlyStats data)) /\
  map trend_year (subCategoryTrendsData data)
    = [Some (YearValue (Int 2020)); Some (YearValue (Int 2021))].
Proof.
  intros data.
  assert (H : no_negative_year data).
  { intros row y [<-|[<-|[]]] [= <-]; lia. }
  assert (Hno : forall row, In row data -> Sub_Category row <> "year").
  { intros row [<-|[<-|[]]]; discriminate. }
  split; [exact H|]. split; [exact Hno|]. split; [reflexivity|].
  split; [exact (proj1 (proj2 (proj2 (proj2 (proj2 (years_ascending data))) H)))|].
  split; [|reflexivity].
  exact (proj1 (proj2 (proj2 (proj2 (proj2 (proj2 (years_ascending data))) H))
                  Hno)).
Defined.

(** ** C5: the ranking of the sub-categories *)

(** C5, as stated, fails: the sub-category [2] is met first and [1] second,
    with equal sales, and [1] is listed first.  And a total that is [NaN]
    (here [Infinity - Infinity]) is listed first, before a total of 5, which
    is not below it. *)
Lemma tie_order_counterexample :
  let data :=
    [mkRow (ValidDate 2020) (Number.of_Z 10) (Number.of_Z 1) "2";
     mkRow (ValidDate 2020) (Number.of_Z 10) (Number.of_Z 1) "1"] in
  let overflowing :=
    [mkRow (ValidDate 2020) (S754_infinity false) (Number.of_Z 1) "Chairs";
     mkRow (ValidDate 2020) (S754_infinity true) (Number.of_Z 1) "Chairs";
     mkRow (ValidDate 2020) (Number.of_Z 5) (Number.of_Z 1) "Tables"] in
  map (fun s => (SubCategoryData.name s, SubCategoryData.value s))
      (subCategoryStats data)
  = [("1", Number.of_Z 10); ("2", Number.of_Z 10)] /\
  first_index "2" (map Sub_Category data) = Some 0%nat /\
  first_index "1" (map Sub_Category data) = Some 1%nat /\
  map (fun s => (SubCategoryData.name s, SubCategoryData.value s))
      (subCategoryStats overflowing)
  = [("Chairs", S754_nan); ("Tables", Number.of_Z 5)] /\
  SFleb (Number.of_Z 5) S754_nan = false.
Proof.
  repeat split; reflexivity.
Qed.

(** C5, amended: when no sub-category's total sales is [NaN], the summary
    is a rearrangement of the groups in which no entry has smaller total sales
    than a later one, and two entries with equal total sales stand in the order
    in which the grouping object lists their names: names that are array
    indices first, in ascending numeric order, then the other names as first
    met in the input. *)
Theorem subcategories_ranked (data : list Row) :
  Forall (fun s => Number.is_nan (SubCategoryData.value s) = false)
         (subCategoryStats_grouped data) ->
  Permutation (subCategoryStats data) (subCategoryStats_grouped data) /\
  forall i j a b,
    (i < j)%nat ->
    nth_error (subCategoryStats data) i = Some a ->
    nth_error (subCategoryStats data) j = Some b ->
    SFleb (SubCategoryData.value b) (SubCategoryData.value a) = true /\
    (SFeqb (SubCategoryData.value a) (SubCategoryData.value b) = true ->
     own_order (map Sub_Category data)
               (SubCategoryData.name a) (SubCategoryData.name b) /\
     (arrayIndex (SubCategoryData.name a) = None ->
      arrayIndex (SubCategoryData.name b) = None ->
      seen_before (map Sub_Category data)
                  (SubCategoryData.name a) (SubCategoryData.name b))).
Proof.
  intros Hnan. split; [apply orderBy_desc_perm|].
  intros i j a b Hij Ha Hb.
  assert (Hin : forall k s, nth_error (subCategoryStats data) k = Some s ->
                            Number.is_nan (SubCategoryData.value s) = false).
  { intros k s Hs. rewrite Forall_forall in Hnan. apply Hnan.
    eapply Permutation_in; [apply orderBy_desc_perm|].
    eapply nth_error_In; eassumption. }
  pose proof (Hin _ _ Ha) as Na. pose proof (Hin _ _ Hb) as Nb.
  destruct (orderBy_desc_order SubCategoryData.value _ i j a b Hnan Hij Ha Hb)
    as [Hlt|[Heq (p & q & Hpq & Hp & Hq)]].
  - split; [apply rank_le_SFleb; auto|].
    intros E. apply rank_eq_SFeqb in E; [|assumption..].
    rewrite E in Hlt. now apply rank_lt_irrefl in Hlt.
  - split; [apply rank_le_SFleb; auto|]. intros _.
    assert (Hkey : forall k s,
              nth_error (subCategoryStats_grouped data) k = Some s ->
              nth_error (JsObject.keys (groupBy Sub_Category data)) k
              = Some (SubCategoryData.name s)).
    { intros k s. unfold subCategoryStats_grouped, JsObject.keys.
      rewrite !nth_error_map.
      destruct (nth_error (groupBy Sub_Category data) k) as [[key g]|];
        [|discriminate].
      now intros [= <-]. }
    assert (Hord : own_order (map Sub_Category data)
                     (SubCategoryData.name a) (SubCategoryData.name b)).
    { eapply (StronglySorted_nth _ _ p q); [apply groupBy_own_order|exact Hpq|..];
        now apply Hkey. }
    split; [exact Hord|]. intros Ia Ib. unfold own_order in Hord.
    now rewrite Ia, Ib in Hord.
Qed.

Lemma subcategories_ranked_witness :
  let data :=
    [mkRow (ValidDate 2020) (Number.of_Z 100) (Number.of_Z 10) "Chairs";
     mkRow (ValidDate 2020) (Number.of_Z 50) (Number.of_Z 5) "Tables";
     mkRow (ValidDate 2021) (Number.of_Z 150) (Number.of_Z 20) "Chairs"] in
  Forall (fun s => Number.is_nan (SubCategoryData.value s) = false)
         (subCategoryStats_grouped data) /\
  Permutation (subCategoryStats data) (subCategoryStats_grouped data).
Proof.
  intros data.
  assert (H : Forall (fun s => Number.is_nan (SubCategoryData.value s) = false)
                     (subCategoryStats_grouped data))
    by (repeat constructor).
  split; [exact H|]. exact (proj1 (subcategories_ranked data H)).
Defined.

(** ** C6: the keys of a trend row *)

(** C6, as stated, fails: [year] is the sub-category of the row of 2020
    only, yet the trend row of 2021 has the key [year] (it holds the year),
    and in the trend row of 2020 that key holds the sales of the sub-category. *)
Lemma year_key_counterexample :
  subCategoryTrendsData
    [mkRow (ValidDate 2020) (Number.of_Z 5) (Number.of_Z 1) "year";
     mkRow (ValidDate 2021) (Number.of_Z 7) (Number.of_Z 1) "Chairs"]
  = [[("year", SalesValue (Number.of_Z 5))];
     [("year", YearValue (Int 2021)); ("Chairs", SalesValue (Number.of_Z 7))]].
Proof.
  reflexivity.
Qed.

(** C6, amended: every trend row is made from one year group.  Under the
    key [year] it holds the year, or, when rows of that year have the
    sub-category [year], the sum of their sales; and it has any other key
    exactly when a row of that year has that sub-category, the value being the
    sum of those rows' sales. *)
Theorem trend_row_keys (data : list Row) (i : nat) (row : TrendRow) :
  nth_error (subCategoryTrendsData data) i = Some row ->
  exists key yearData,
    nth_error (groupBy yearKey data) i = Some (key, yearData) /\
    yearData = group_of yearKey key data /\
    JsObject.get "year" row
      = match group_of Sub_Category "year" yearData with
        | [] => Some (YearValue (parseInt key))
        | named_year => Some (SalesValue (sumBy named_year Sales))
        end /\
    forall s, s <> "year" ->
      (JsObject.has s row = true <->
       exists r, In r data /\ yearKey r = key /\ Sub_Category r = s) /\
      (forall v, JsObject.get s row = Some v ->
         v = SalesValue (sumBy (group_of Sub_Category s yearData) Sales)).
Proof.
  unfold subCategoryTrendsData. rewrite nth_error_map.
  destruct (nth_error (groupBy yearKey data) i) as [[key yearData]|] eqn:E;
    [|discriminate].
  intros [= <-]. exists key, yearData. split; [reflexivity|].
  assert (Hg : yearData = group_of yearKey key data).
  { apply nth_error_In in E. now apply groupBy_In in E. }
  split; [exact Hg|]. split.
  - rewrite trendRow_get.
    now destruct (group_of Sub_Category "year" yearData).
  - intros s Hs. split.
    + rewrite (trendRow_has key yearData s Hs). rewrite Hg.
      split; intros (r & Hr & Hsub); exists r.
      * apply group_of_In in Hr. tauto.
      * split; [apply group_of_In|]; tauto.
    + intros v. rewrite trendRow_get.
      destruct (group_of Sub_Category s yearData) as [|r g].
      * destruct (String.eqb_spec "year" s); [congruence|discriminate].
      * now intros [= <-].
Qed.

Lemma trend_row_keys_witness :
  let data :=
    [mkRow (ValidDate 2020) (Number.of_Z 100) (Number.of_Z 10) "Chairs";
     mkRow (ValidDate 2020) (Number.of_Z 50) (Number.of_Z 5) "Tables";
     mkRow (ValidDate 2021) (Number.of_Z 150) (Number.of_Z 20) "Chairs"] in
  let row := [("year", YearValue (Int 2021));
              ("Chairs", SalesValue (Number.of_Z 150))] in
  nth_error (subCategoryTrendsData data) 1 = Some row /\
  exists key yearData,
    nth_error (groupBy yearKey data) 1 = Some (key, yearData) /\
    yearData = group_of yearKey key data /\
    JsObject.get "year" row
      = match group_of Sub_Category "year" yearData with
        | [] => Some (YearValue (parseInt key))
        | named_year => Some (SalesValue (sumBy named_year Sales))
        end /\
    forall s, s <> "year" ->
      (JsObject.has s row = true <->
       exists r, In r data /\ yearKey r = key /\ Sub_Category r = s) /\
      (forall v, JsObject.get s row = Some v ->
         v = SalesValue (sumBy (group_of Sub_Category s yearData) Sales)).
Proof.
  intros data row. split; [reflexivity|].
  exact (trend_row_keys data 1 row eq_refl).
Defined.

(** ** C7: the yearly totals and the overall total *)

(** C7, as stated, fails, whether the totals are added in binary64 or
    exactly: with sales 0.1 in 2020 and 0.2 and 0.5 in 2021, the yearly totals
    are 0.1 and 0.7 and add up to 0.7999999999999999, and the three sales add
    up to 0.8; the exact sums differ too, the total of 2021 being rounded. *)
Lemma yearly_totals_counterexample :
  let tenth (z : Z) := Number.div (Number.of_Z z) (Number.of_Z 10) in
  let data :=
    [mkRow (ValidDate 2020) (tenth 1%Z) Number.zero "Chairs";
     mkRow (ValidDate 2021) (tenth 2%Z) Number.zero "Chairs";
     mkRow (ValidDate 2021) (tenth 5%Z) Number.zero "Chairs"] in
  map sales (yearlyStats data) = [tenth 1%Z; tenth 7%Z] /\
  float_sum (map sales (yearlyStats data))
    = S754_finite false 7205759403792793 (-53) /\
  float_sum (map Sales data) = tenth 8%Z /\
  TotalMetrics.totalSales (totals data) = tenth 8%Z /\
  tenth 8%Z = S754_finite false 7205759403792794 (-53) /\
  exact_sum (map sales (yearlyStats data)) <> exact_sum (map Sales data).
Proof.
  repeat split; try reflexivity.
  intros H. vm_compute in H. discriminate H.
Qed.

(** C7, amended: grouping by year partitions the rows, losing none and
    repeating none: the year groups, one after the other, are a rearrangement
    of the input; each entry's total sales is [sumBy] of its own group; and
    the order counts of the entries add up to the number of rows. *)
Theorem year_groups_partition (data : list Row) :
  Permutation (List.concat (map snd (groupBy yearKey data))) data /\
  map sales (yearlyStats data)
    = map (fun group => sumBy (snd group) Sales) (groupBy yearKey data) /\
  map orders (yearlyStats data)
    = map (fun group => List.length (snd group)) (groupBy yearKey data) /\
  list_sum (map orders (yearlyStats data)) = List.length data.
Proof.
  pose proof (groupBy_partition yearKey data) as Hperm.
  assert (Hs : map sales (yearlyStats data)
               = map (fun group => sumBy (snd group) Sales) (groupBy yearKey data)).
  { rewrite yearlyStats_growth_pass, growth_pass_map by reflexivity.
    unfold yearlyStats_grouped. rewrite map_map. apply map_ext. now intros [k g]. }
  assert (Ho : map orders (yearlyStats data)
               = map (fun group => List.length (snd group)) (groupBy yearKey data)).
  { rewrite yearlyStats_growth_pass, growth_pass_map by reflexivity.
    unfold yearlyStats_grouped. rewrite map_map. apply map_ext. now intros [k g]. }
  repeat split; try assumption.
  rewrite Ho, <- (Permutation_length Hperm), length_concat.
  now rewrite map_map.
Qed.

(** ** C8: the whole-dataset aggregate *)

(** C8: for a collection that is not empty, [loadData] stores the number of
    rows as total orders, the sum of the sales and the sum of the profits
    (added left to right from the first row, which is the sum from zero up to
    the sign of a zero) as total sales and total profit, and total sales
    divided by the number of rows as the average order value. *)
Theorem aggregate_metrics (first : Row) (rest : list Row) :
  let data := first :: rest in
  let metrics := totalMetrics (loadData (fetched data)) in
  TotalMetrics.totalOrders metrics = List.length data /\
  TotalMetrics.totalSales metrics
    = fold_left Number.add (map Sales rest) (Sales first) /\
  Number.same_value (TotalMetrics.totalSales metrics) (float_sum (map Sales data)) /\
  TotalMetrics.totalProfit metrics
    = fold_left Number.add (map Profit rest) (Profit first) /\
  Number.same_value (TotalMetrics.totalProfit metrics) (float_sum (map Profit data)) /\
  TotalMetrics.avgOrderValue metrics
    = Number.div (TotalMetrics.totalSales metrics) (Number.of_nat (List.length data)).
Proof.
  intros data metrics.
  assert (E : metrics = totals data) by reflexivity.
  rewrite E. unfold totals.
  cbn [TotalMetrics.totalOrders TotalMetrics.totalSales
       TotalMetrics.totalProfit TotalMetrics.avgOrderValue].
  split; [reflexivity|].
  split; [apply sumBy_fold|].
  split; [apply (sumBy_float_sum Sales data)|].
  split; [apply sumBy_fold|].
  split; [apply (sumBy_float_sum Profit data)|reflexivity].
Qed.

(** ** C9: rows whose date does not parse *)

(** C9, as stated, fails: a dataset whose only row has an invalid date is
    not rejected (no error is stored), and the row is not left out: it makes
    a yearly entry and a trend row with year [NaN], and is counted. *)
Lemma invalid_date_counterexample :
  let state :=
    loadData (fetched
      [mkRow InvalidDate (Number.of_Z 10) (Number.of_Z 1) "Chairs"]) in
  error state = None /\
  map (fun entry => (year entry, orders entry)) (yearlyData state)
    = [(NaN, 1%nat)] /\
  subCategoryTrends state
    = [[("year", YearValue NaN); ("Chairs", SalesValue (Number.of_Z 10))]] /\
  map (fun s => (SubCategoryData.name s, SubCategoryData.orders s))
      (subCategoryData state)
    = [("Chairs", 1%nat)] /\
  TotalMetrics.totalOrders (totalMetrics state) = 1%nat.
Proof.
  repeat split; reflexivity.
Qed.

(** C9, amended: a row whose date is invalid is kept by every builder, and
    no error is raised for it.  After a successful fetch and parse, the state
    holds no error; the yearly list has an entry with year [NaN] that counts
    exactly the rows with an invalid date; the trend rows include the row made
    from those rows, which has the row's sub-category as a key; the entry of
    the row's sub-category counts it with the other rows of that sub-category;
    and the total orders count every row. *)
Theorem invalid_date_rows_kept (response : Fetched) (row : Row) :
  ok response = true ->
  ParseResult.errors (parsedData response) = [] ->
  In row (ParseResult.data (parsedData response)) ->
  Order_Date row = InvalidDate ->
  let data := ParseResult.data (parsedData response) in
  let undated := group_of yearKey "NaN" data in
  error (loadData response) = None /\
  In row undated /\
  (exists entry,
     In entry (yearlyData (loadData response)) /\
     year entry = NaN /\ orders entry = List.length undated) /\
  (In (trendRow "NaN" undated) (subCategoryTrends (loadData response)) /\
   JsObject.has (Sub_Category row) (trendRow "NaN" undated) = true) /\
  In (subCategoryEntry (Sub_Category row)
        (group_of Sub_Category (Sub_Category row) data))
     (subCategoryData (loadData response)) /\
  In row (group_of Sub_Category (Sub_Category row) data) /\
  TotalMetrics.totalOrders (totalMetrics (loadData response)) = List.length data.
Proof.
  intros Hok Herr Hrow Hdate data undated.
  assert (Hkey : yearKey row = "NaN") by (unfold yearKey; now rewrite Hdate).
  assert (Hload : loadData response =
                  mkState (yearlyStats data) (totals data) (subCategoryStats data)
                          (subCategoryTrendsData data) None).
  { unfold loadData. now rewrite Hok, Herr. }
  rewrite Hload. cbn [error yearlyData totalMetrics subCategoryData subCategoryTrends].
  assert (Hun : In row undated) by (apply group_of_In; auto).
  assert (Hgroup : In ("NaN", undated) (groupBy yearKey data)).
  { unfold undated. rewrite <- Hkey. now apply groupBy_group. }
  split; [reflexivity|]. split; [exact Hun|]. split.
  { destruct (yearlyStats_of_group data "NaN" undated Hgroup)
      as (entry & Hin & Hy & Ho & _).
    exists entry. auto. }
  split.
  { split.
    - unfold subCategoryTrendsData. apply in_map_iff.
      now exists ("NaN", undated).
    - unfold JsObject.has. rewrite trendRow_get.
      destruct (group_of Sub_Category (Sub_Category row) undated) eqn:E;
        [|reflexivity].
      exfalso.
      assert (H : In row (group_of Sub_Category (Sub_Category row) undated))
        by (apply group_of_In; auto).
      now rewrite E in H. }
  split.
  { apply subCategoryStats_In.
    exists (Sub_Category row), (group_of Sub_Category (Sub_Category row) data).
    split; [now apply groupBy_group|reflexivity]. }
  split; [apply group_of_In; auto|reflexivity].
Qed.

Lemma invalid_date_rows_kept_witness :
  let row := mkRow InvalidDate (Number.of_Z 10) (Number.of_Z 1) "Chairs" in
  let response :=
    fetched
      [mkRow (ValidDate 2020) (Number.of_Z 100) (Number.of_Z 10) "Chairs"; row] in
  ok response = true /\ ParseResult.errors (parsedData response) = [] /\
  In row (ParseResult.data (parsedData response)) /\ Order_Date row = InvalidDate /\
  error (loadData response) = None.
Proof.
  intros row response.
  assert (Hin : In row (ParseResult.data (parsedData response))) by (right; now left).
  split; [reflexivity|]. split; [reflexivity|].
  split; [exact Hin|]. split; [reflexivity|].
  exact (proj1 (invalid_date_rows_kept response row eq_refl eq_refl Hin eq_refl)).
Defined.

(** ** C10: no group is empty *)

(** C10: every group of the year grouping and of the sub-category grouping
    holds at least one row.  So every yearly entry and every sub-category
    entry counts at least one order, and the divisor of a yearly entry's
    average order value, its order count as a Number, is not zero -- whereas
    the divisor of the whole-dataset average is zero for the empty
    collection. *)
Theorem groups_are_not_empty (data : list Row) :
  (forall key group,
     In (key, group) (groupBy yearKey data) \/
     In (key, group) (groupBy Sub_Category data) ->
     (1 <= List.length group)%nat) /\
  (forall entry,
     In entry (yearlyStats data) ->
     (1 <= orders entry <= List.length data)%nat /\
     avgOrderValue entry
       = Number.div (sales entry) (Number.of_nat (orders entry)) /\
     Number.is_zero (Number.of_nat (orders entry)) = false) /\
  (forall s,
     In s (subCategoryStats data) ->
     (1 <= SubCategoryData.orders s <= List.length data)%nat) /\
  Number.of_nat (TotalMetrics.totalOrders (totals [])) = Number.zero.
Proof.
  assert (Hlen : forall (f : Row -> string) key, 
            (List.length (group_of f key data) <= List.length data)%nat)
    by (intros; apply filter_length_le).
  split; [|split; [|split; [|reflexivity]]].
  - intros key group [H|H]; eapply groupBy_nonempty; eassumption.
  - intros entry Hin. apply yearlyStats_In in Hin.
    destruct Hin as (key & yearData & Hg & _ & Hs & _ & Ho & Ha).
    pose proof (groupBy_nonempty _ _ _ _ Hg) as H1.
    apply groupBy_In in Hg. destruct Hg as [Hg _].
    assert (H2 : (List.length yearData <= List.length data)%nat)
      by (rewrite Hg; apply Hlen).
    rewrite Ho, Hs. split; [lia|]. split; [exact Ha|].
    now apply of_nat_nonzero.
  - intros s Hin. apply subCategoryStats_In in Hin.
    destruct Hin as (key & g & Hg & ->). simpl.
    pose proof (groupBy_nonempty _ _ _ _ Hg) as H1.
    apply groupBy_In in Hg. destruct Hg as [Hg _].
    rewrite Hg in *. split; [assumption|apply Hlen].
Qed.

Lemma groups_are_not_empty_witness :
  let data :=
    [mkRow (ValidDate 2020) (Number.of_Z 100) (Number.of_Z 10) "Chairs";
     mkRow (ValidDate 2020) (Number.of_Z 50) (Number.of_Z 5) "Tables";
     mkRow (ValidDate 2021) (Number.of_Z 150) (Number.of_Z 20) "Chairs"] in
  let entry := nth 0 (yearlyStats data) (yearlyEntry "" []) in
  In entry (yearlyStats data) /\
  (1 <= orders entry <= List.length data)%nat /\
  Number.is_zero (Number.of_nat (orders entry)) = false.
Proof.
  intros data entry.
  assert (Hin : In entry (yearlyStats data)) by (now left).
  pose proof (proj1 (proj2 (groups_are_not_empty data)) _ Hin) as (H1 & _ & H3).
  split; [exact Hin|]. split; [exact H1|exact H3].
Defined.

(** * Further properties of the component *)

(** ** The aggregates, group by group *)

Lemma key_of_groupBy_yearKey (data : list Row) (key : string) :
  In key (JsObject.keys (groupBy yearKey data)) ->
  ToString (parseInt key) = key /\
  exists row, In row data /\ yearKey row = key.
Proof.
  intros Hk. apply (proj1 (groupBy_keys_In yearKey data key)), in_map_iff in Hk.
  destruct Hk as (row & <- & Hrow). split; [|now exists row].
  now rewrite parseInt_yearKey.
Qed.

Lemma yearlyStats_years_NoDup (data : list Row) :
  NoDup (map year (yearlyStats data)).
Proof.
  rewrite yearlyStats_years, yearlyStats_grouped_years.
  apply Finite.Injective_map_NoDup_in; [|apply groupBy_NoDup].
  intros k1 k2 H1 H2 E.
  apply key_of_groupBy_yearKey in H1, H2.
  destruct H1 as [<- _], H2 as [<- _]. now rewrite E.
Qed.

Lemma yearlyStats_years_In (data : list Row) (y : IntNumber) :
  In y (map year (yearlyStats data)) <->
  exists row, In row data /\ getFullYear (Order_Date row) = y.
Proof.
  rewrite yearlyStats_years, yearlyStats_grouped_years, in_map_iff. split.
  - intros (k & <- & Hk). apply key_of_groupBy_yearKey in Hk.
    destruct Hk as (_ & row & Hrow & <-). exists row.
    split; [assumption|]. symmetry. apply parseInt_yearKey.
  - intros (row & Hrow & <-). exists (yearKey row).
    split; [apply parseInt_yearKey|].
    apply groupBy_keys_In. now apply in_map.
Qed.

(** One yearly entry per year met in the rows (lines 82-93): no year is
    listed twice, a year is listed exactly when some row has it (with [NaN]
    standing for every invalid date), there are as many trend rows as yearly
    entries, and never more entries than rows. *)
Theorem one_entry_per_year (data : list Row) :
  NoDup (map year (yearlyStats data)) /\
  (forall y, In y (map year (yearlyStats data)) <->
             exists row, In row data /\ getFullYear (Order_Date row) = y) /\
  List.length (subCategoryTrendsData data) = List.length (yearlyStats data) /\
  (List.length (yearlyStats data) <= List.length data)%nat.
Proof.
  split; [apply yearlyStats_years_NoDup|].
  split; [apply yearlyStats_years_In|]. split.
  - rewrite <- (length_map year (yearlyStats data)), yearlyStats_years.
    unfold subCategoryTrendsData, yearlyStats_grouped. now rewrite !length_map.
  - rewrite <- (length_map year (yearlyStats data)), yearlyStats_years,
      yearlyStats_grouped_years.
    rewrite length_map, <- (length_map yearKey data).
    apply NoDup_incl_length; [apply groupBy_NoDup|].
    intros k Hk. now apply groupBy_keys_In.
Qed.

(** Every yearly entry is the aggregate of the rows of its year, and of no
    other row (lines 82-92): sales and profit are [sumBy] over those rows in
    input order, the order count is their number, the average their sales
    divided by that number.  Rows with an invalid date all count for the one
    entry with year [NaN]. *)
Theorem yearly_entry_of_its_rows (data : list Row) (entry : YearlyData) :
  In entry (yearlyStats data) ->
  let rows := group_of yearKey (ToString (year entry)) data in
  (forall row, In row rows <->
               In row data /\ getFullYear (Order_Date row) = year entry) /\
  sales entry = sumBy rows Sales /\
  profit entry = sumBy rows Profit /\
  orders entry = List.length rows /\
  avgOrderValue entry
    = Number.div (sumBy rows Sales) (Number.of_nat (List.length rows)).
Proof.
  intros Hin rows. apply yearlyStats_In in Hin.
  destruct Hin as (key & yearData & Hg & Hy & Hs & Hp & Ho & Ha).
  assert (Hkey : ToString (year entry) = key).
  { rewrite Hy. apply (key_of_groupBy_yearKey data).
    change key with (fst (key, yearData)). now apply in_map. }
  apply groupBy_In in Hg. destruct Hg as [Hg _].
  unfold rows. rewrite Hkey, <- Hg. split; [|auto].
  intros row. rewrite Hg, group_of_In. split; intros [Hr Hk]; split; trivial.
  - rewrite <- parseInt_yearKey, Hk. now symmetry.
  - rewrite <- Hkey. unfold yearKey. now rewrite Hk.
Qed.

Lemma yearly_entry_of_its_rows_witness :
  let data :=
    [mkRow (ValidDate 2020) (Number.of_Z 100) (Number.of_Z 10) "Chairs";
     mkRow (ValidDate 2021) (Number.of_Z 150) (Number.of_Z 20) "Chairs";
     mkRow (ValidDate 2020) (Number.of_Z 50) (Number.of_Z 5) "Tables"] in
  let entry := nth 0 (yearlyStats data) (yearlyEntry "" []) in
  In entry (yearlyStats data) /\
  orders entry = 2%nat /\
  orders entry = List.length (group_of yearKey (ToString (year entry)) data).
Proof.
  intros data entry.
  assert (Hin : In entry (yearlyStats data)) by (now left).
  split; [exact Hin|]. split; [reflexivity|].
  exact (proj1 (proj2 (proj2 (proj2
           (yearly_entry_of_its_rows data entry Hin))))).
Defined.

Lemma subCategoryStats_grouped_names (data : list Row) :
  map SubCategoryData.name (subCategoryStats_grouped data)
  = JsObject.keys (groupBy Sub_Category data).
Proof.
  unfold subCategoryStats_grouped, JsObject.keys. rewrite map_map.
  apply map_ext. now intros [k g].
Qed.

Lemma subCategoryStats_names (data : list Row) (s : string) :
  In s (map SubCategoryData.name (subCategoryStats data)) <->
  exists row, In row data /\ Sub_Category row = s.
Proof.
  assert (Hperm : Permutation (map SubCategoryData.name (subCategoryStats data))
                    (JsObject.keys (groupBy Sub_Category data))).
  { rewrite <- subCategoryStats_grouped_names. apply Permutation_map.
    apply orderBy_desc_perm. }
  split.
  - intros Hs. apply (Permutation_in _ Hperm) in Hs.
    apply (proj1 (groupBy_keys_In Sub_Category data s)), in_map_iff in Hs.
    destruct Hs as (row & <- & Hrow). now exists row.
  - intros (row & Hrow & <-).
    apply (Permutation_in _ (Permutation_sym Hperm)).
    apply groupBy_keys_In. now apply in_map.
Qed.

(** The sub-category summary (lines 114-123): no name is listed twice, a
    name is listed exactly when some row has it, each entry is the aggregate
    of the rows of its name in input order, and the order counts add up to the
    total orders of the dataset. *)
Theorem subcategory_summary_content (data : list Row) :
  NoDup (map SubCategoryData.name (subCategoryStats data)) /\
  (forall s, In s (map SubCategoryData.name (subCategoryStats data)) <->
             exists row, In row data /\ Sub_Category row = s) /\
  (forall entry, In entry (subCategoryStats data) ->
     entry = subCategoryEntry (SubCategoryData.name entry)
               (group_of Sub_Category (SubCategoryData.name entry) data)) /\
  list_sum (map SubCategoryData.orders (subCategoryStats data))
    = TotalMetrics.totalOrders (totals data).
Proof.
  assert (Hperm : Permutation (subCategoryStats data) (subCategoryStats_grouped data))
    by apply orderBy_desc_perm.
  split; [|split; [|split]].
  - eapply Permutation_NoDup.
    + apply Permutation_map. symmetry. exact Hperm.
    + rewrite subCategoryStats_grouped_names. apply groupBy_NoDup.
  - apply subCategoryStats_names.
  - intros entry Hin. apply subCategoryStats_In in Hin.
    destruct Hin as (key & g & Hg & ->). simpl.
    apply groupBy_In in Hg. now destruct Hg as [-> _].
  - rewrite (Permutation_list_sum
               (Permutation_map SubCategoryData.orders Hperm)).
    unfold subCategoryStats_grouped. rewrite map_map. simpl.
    rewrite <- (Permutation_length (groupBy_partition Sub_Category data)).
    rewrite length_concat, map_map. f_equal. apply map_ext. now intros [k g].
Qed.

(** The trend rows and the sub-category summary hold the same sub-category
    names (lines 114-137): a key other than [year] occurs in some trend row
    exactly when it is a name of the sub-category summary.  (This is about
    the data handed to the charts; which keys the trend chart draws is fixed
    by its four [Line] elements, lines 303-306.) *)
Theorem trend_keys_are_summary_names (data : list Row) (s : string) :
  s <> "year" ->
  ((exists row, In row (subCategoryTrendsData data) /\
                JsObject.has s row = true) <->
   In s (map SubCategoryData.name (subCategoryStats data))).
Proof.
  intros Hs. rewrite subCategoryStats_names. split.
  - intros (row & Hrow & Hhas).
    unfold subCategoryTrendsData in Hrow. apply in_map_iff in Hrow.
    destruct Hrow as ([key g] & <- & Hg).
    apply (trendRow_has key g s Hs) in Hhas.
    destruct Hhas as (r & Hr & Hsub). exists r. split; [|assumption].
    apply groupBy_In in Hg. destruct Hg as [-> _].
    now apply group_of_In in Hr.
  - intros (r & Hr & Hsub).
    exists (trendRow (yearKey r) (group_of yearKey (yearKey r) data)). split.
    + unfold subCategoryTrendsData. apply in_map_iff.
      exists (yearKey r, group_of yearKey (yearKey r) data).
      split; [reflexivity|now apply groupBy_group].
    + apply (trendRow_has _ _ s Hs). exists r.
      split; [apply group_of_In; auto|assumption].
Qed.

Lemma trend_keys_are_summary_names_witness :
  let data :=
    [mkRow (ValidDate 2020) (Number.of_Z 100) (Number.of_Z 10) "Chairs";
     mkRow (ValidDate 2021) (Number.of_Z 150) (Number.of_Z 20) "Tables"] in
  "Tables" <> "year" /\
  In "Tables" (map SubCategoryData.name (subCategoryStats data)) /\
  exists row, In row (subCategoryTrendsData data) /\
              JsObject.has "Tables" row = true.
Proof.
  intros data.
  assert (Hs : "Tables" <> "year") by discriminate.
  assert (Hin : In "Tables" (map SubCategoryData.name (subCategoryStats data)))
    by (now left).
  split; [exact Hs|]. split; [exact Hin|].
  exact (proj2 (trend_keys_are_summary_names data "Tables" Hs) Hin).
Defined.

(** ** The order of the rows *)

Lemma filter_length_Permutation {A : Type} (f : A -> bool) (l l' : list A) :
  Permutation l l' -> List.length (filter f l) = List.length (filter f l').
Proof.
  induction 1 as [|x l l' _ IH|x y l|l l' l'' _ IH1 _ IH2]; simpl.
  - reflexivity.
  - destruct (f x); simpl; now rewrite IH.
  - destruct (f x), (f y); reflexivity.
  - now rewrite IH1.
Qed.

Lemma year_before_antisym (a b : IntNumber) :
  year_before a b -> year_before b a -> a = b.
Proof. destruct a, b; simpl; try tauto. lia. Qed.

Lemma yearlyStats_year_orders (data : list Row) :
  map (fun entry => (year entry, orders entry)) (yearlyStats data)
  = map (fun y => (y, List.length (group_of yearKey (ToString y) data)))
        (map year (yearlyStats data)).
Proof.
  rewrite yearlyStats_years.
  rewrite yearlyStats_growth_pass, growth_pass_map by reflexivity.
  unfold yearlyStats_grouped. rewrite !map_map.
  apply map_ext_in. intros [k g] Hin. simpl.
  assert (Hk : ToString (parseInt k) = k).
  { apply (key_of_groupBy_yearKey data).
    change k with (fst (k, g)). now apply in_map. }
  apply groupBy_In in Hin. destruct Hin as [-> _]. now rewrite Hk.
Qed.

(** The order of the rows does not matter to what is counted (lines 82-93,
    106-111): when no row is dated before the year 0, two collections holding
    the same rows in different orders give the same years in the same order
    with the same order counts, and the same total orders.  (The sums are
    added in row order, so they may differ in the last bit.) *)
Theorem row_order_keeps_counts (data data' : list Row) :
  Permutation data data' ->
  no_negative_year data ->
  map (fun entry => (year entry, orders entry)) (yearlyStats data)
  = map (fun entry => (year entry, orders entry)) (yearlyStats data') /\
  TotalMetrics.totalOrders (totals data) = TotalMetrics.totalOrders (totals data').
Proof.
  intros Hperm Hdata.
  assert (Hdata' : no_negative_year data').
  { intros row y Hrow. apply Hdata. now apply (Permutation_in _ (Permutation_sym Hperm)). }
  assert (Hyears : map year (yearlyStats data) = map year (yearlyStats data')).
  { apply (sorted_perm_unique year_before).
    - intros a b _ _. apply year_before_antisym.
    - rewrite yearlyStats_years. now apply yearlyStats_grouped_sorted.
    - rewrite yearlyStats_years. now apply yearlyStats_grouped_sorted.
    - apply NoDup_Permutation; try apply yearlyStats_years_NoDup.
      intros y. rewrite !yearlyStats_years_In.
      split; intros (row & Hrow & Hy); exists row; split; trivial.
      + now apply (Permutation_in _ Hperm).
      + now apply (Permutation_in _ (Permutation_sym Hperm)). }
  split.
  - rewrite !yearlyStats_year_orders, Hyears. apply map_ext. intros y.
    f_equal. unfold group_of. now apply filter_length_Permutation.
  - simpl. now apply Permutation_length.
Qed.

Lemma row_order_keeps_counts_witness :
  let a := mkRow (ValidDate 2021) (Number.of_Z 150) (Number.of_Z 20) "Chairs" in
  let b := mkRow (ValidDate 2020) (Number.of_Z 100) (Number.of_Z 10) "Chairs" in
  let c := mkRow InvalidDate (Number.of_Z 50) (Number.of_Z 5) "Tables" in
  Permutation [a; b; c] [c; b; a] /\
  map (fun entry => (year entry, orders entry)) (yearlyStats [a; b; c])
  = map (fun entry => (year entry, orders entry)) (yearlyStats [c; b; a]).
Proof.
  intros a b c.
  assert (Hperm : Permutation [a; b; c] [c; b; a]).
  { apply (Permutation_rev [a; b; c]). }
  assert (Hdata : no_negative_year [a; b; c]).
  { intros row y [<-|[<-|[<-|[]]]] E; inversion E; lia. }
  split; [exact Hperm|].
  exact (proj1 (row_order_keeps_counts [a; b; c] [c; b; a] Hperm Hdata)).
Defined.

(** ** The cells of the pie chart *)

Lemma cell_key_inj (i j : nat) : Cell.key (cell i) = Cell.key (cell j) -> i = j.
Proof.
  unfold cell. simpl. intros H. injection H as H.
  apply (ToString_inj (Int (Z.of_nat i)) (Int (Z.of_nat j))) in H.
  injection H as H. lia.
Qed.

Lemma cell_fill (i : nat) : Cell.fill (cell i) = nth_error COLORS (i mod 4).
Proof. reflexivity. Qed.

Lemma pieCells_nth (subCategoryData : list SubCategoryData.t) (i : nat) :
  nth_error (pieCells subCategoryData) i
  = if (i <? List.length subCategoryData)%nat then Some (cell i) else None.
Proof.
  unfold pieCells. rewrite nth_error_map, nth_error_seq.
  now destruct (i <? List.length subCategoryData)%nat.
Qed.

(** The cells of the pie chart (lines 8, 273-275): one cell per
    sub-category entry; the keys of the cells are pairwise distinct; every
    cell has a colour of [COLORS] (the index never leaves the array); and two
    cells have the same colour exactly when their positions differ by a
    multiple of four, so the fifth slice repeats the colour of the first. *)
Theorem pie_cell_colours (subCategoryData : list SubCategoryData.t) :
  List.length (pieCells subCategoryData) = List.length subCategoryData /\
  NoDup (map Cell.key (pieCells subCategoryData)) /\
  (forall c, In c (pieCells subCategoryData) ->
     exists colour, Cell.fill c = Some colour /\ In colour COLORS) /\
  (forall i j a b,
     nth_error (pieCells subCategoryData) i = Some a ->
     nth_error (pieCells subCategoryData) j = Some b ->
     (Cell.fill a = Cell.fill b <-> i mod 4 = j mod 4)).
Proof.
  split; [|split; [|split]].
  - unfold pieCells. now rewrite length_map, length_seq.
  - unfold pieCells. rewrite map_map.
    apply Finite.Injective_map_NoDup_in; [|apply seq_NoDup].
    intros i j _ _. apply cell_key_inj.
  - intros c Hc. unfold pieCells in Hc. apply in_map_iff in Hc.
    destruct Hc as (i & <- & _). rewrite cell_fill.
    pose proof (Nat.mod_upper_bound i 4 ltac:(discriminate)) as Hlt.
    destruct (i mod 4) as [|[|[|[|n]]]]; [| | | |lia];
      (eexists; split; [reflexivity|unfold COLORS; simpl; tauto]).
  - intros i j a b Ha Hb. rewrite pieCells_nth in Ha, Hb.
    destruct (i <? _)%nat; [|discriminate].
    destruct (j <? _)%nat; [|discriminate].
    injection Ha as <-. injection Hb as <-. rewrite !cell_fill.
    pose proof (Nat.mod_upper_bound i 4 ltac:(discriminate)) as Hi.
    pose proof (Nat.mod_upper_bound j 4 ltac:(discriminate)) as Hj.
    destruct (i mod 4) as [|[|[|[|n]]]]; [| | | |lia];
      (destruct (j mod 4) as [|[|[|[|m]]]]; [| | | |lia]);
      simpl; split; intros H; try reflexivity; discriminate.
Qed.

(** ** Growth between finite totals *)

Lemma iter_pos_invariant {A : Type} (P : A -> Prop) (f : A -> A) :
  (forall x, P x -> P (f x)) -> forall n x, P x -> P (iter_pos f n x).
Proof.
  intros Hf. induction n as [n IH|n IH|]; intros x Hx; simpl; auto.
Qed.

Lemma shr_1_nonneg (mrs : shr_record) :
  (0 <= shr_m mrs)%Z -> (0 <= shr_m (shr_1 mrs))%Z.
Proof.
  destruct mrs as [m r s]. destruct m as [|p|p]; simpl; try lia;
    destruct p; simpl; lia.
Qed.

Lemma shr_fexp_nonneg (m e : Z) (l : location) :
  (0 <= m)%Z ->
  (0 <= shr_m (fst (shr_fexp Number.prec Number.emax m e l)))%Z.
Proof.
  intros Hm. unfold shr_fexp, shr.
  assert (H0 : (0 <= shr_m (shr_record_of_loc m l))%Z)
    by (destruct l as [|[| |]]; exact Hm).
  destruct (fexp Number.prec Number.emax (Zdigits2 m + e) - e)%Z; simpl;
    try exact H0.
  apply (iter_pos_invariant (fun mrs => (0 <= shr_m mrs)%Z)); [|exact H0].
  apply shr_1_nonneg.
Qed.

Lemma round_nearest_even_nonneg (m : Z) (l : location) :
  (0 <= m)%Z -> (0 <= round_nearest_even m l)%Z.
Proof.
  intros Hm. unfold round_nearest_even.
  destruct l as [|[| |]]; try destruct (Z.even m); lia.
Qed.

(** Rounding a mantissa that is not negative never gives [NaN]. *)
Lemma binary_round_aux_not_nan (s : bool) (m e : Z) (l : location) :
  (0 <= m)%Z ->
  Number.is_nan (binary_round_aux Number.prec Number.emax s m e l) = false.
Proof.
  intros Hm. unfold binary_round_aux.
  pose proof (shr_fexp_nonneg m e l Hm) as H1.
  destruct (shr_fexp Number.prec Number.emax m e l) as [mrs1 e1]. simpl in H1.
  pose proof (shr_fexp_nonneg _ e1 loc_Exact
                (round_nearest_even_nonneg _ (loc_of_shr_record mrs1) H1)) as H2.
  destruct (shr_fexp Number.prec Number.emax
              (round_nearest_even (shr_m mrs1) (loc_of_shr_record mrs1))
              e1 loc_Exact) as [mrs2 e2]. simpl in H2.
  destruct (shr_m mrs2); [reflexivity| |lia].
  now destruct (e2 <=? Number.emax - Number.prec)%Z.
Qed.

Lemma binary_normalize_not_nan (m e : Z) :
  Number.is_nan (binary_normalize Number.prec Number.emax m e false) = false.
Proof.
  destruct m as [|p|p]; simpl; [reflexivity| |]; unfold binary_round;
    destruct (shl_align p e _) as [mz ez]; now apply binary_round_aux_not_nan.
Qed.

Lemma sub_finite_not_nan (x y : spec_float) :
  isFinite x = true -> isFinite y = true ->
  Number.is_nan (Number.sub x y) = false.
Proof.
  destruct x as [sx| | |sx mx ex], y as [sy| | |sy my ey]; try discriminate;
    intros _ _; try reflexivity.
  - now destruct sx, sy.
  - apply binary_normalize_not_nan.
Qed.

Lemma div_finite_not_nan (x : spec_float) (s : bool) (m : positive) (e : Z) :
  Number.is_nan x = false ->
  Number.is_nan (Number.div x (S754_finite s m e)) = false.
Proof.
  destruct x as [sx|sx| |sx mx ex]; try discriminate; intros _; try reflexivity.
  unfold Number.div, SFdiv, SFdiv_core_binary.
  set (s' := (ex - e - _)%Z).
  set (m' := match s' with
             | 0%Z => Z.pos mx
             | Z.pos _ => Z.shiftl (Z.pos mx) s'
             | Z.neg _ => 0%Z
             end).
  assert (Hm : (0 <= m')%Z).
  { unfold m'. destruct s'; try lia. apply Z.shiftl_nonneg. lia. }
  pose proof (Z.div_pos m' (Z.pos m) Hm ltac:(lia)) as Hq.
  unfold Z.div in Hq.
  destruct (Z.div_eucl m' (Z.pos m)) as [q r]. simpl in Hq.
  now apply binary_round_aux_not_nan.
Qed.

Lemma mul_hundred_not_nan (x : spec_float) :
  Number.is_nan x = false ->
  Number.is_nan (Number.mul x Number.hundred) = false.
Proof.
  rewrite hundred_finite.
  destruct x as [sx|sx| |sx mx ex]; try discriminate; intros _; try reflexivity.
  unfold Number.mul, SFmul. apply binary_round_aux_not_nan. lia.
Qed.

(** Between finite totals, [NaN] comes from 0 / 0 only. *)
Lemma growth_nan_iff (cur prev : spec_float) :
  isFinite cur = true -> isFinite prev = true ->
  Number.is_nan (growth cur prev) = true <->
  Number.is_zero prev = true /\ Number.is_zero cur = true.
Proof.
  intros Hc Hp. split.
  - intros Hnan.
    destruct prev as [sp| | |sp mp ep]; try discriminate.
    + split; [reflexivity|].
      destruct cur as [sc| | |sc mc ec]; try discriminate; reflexivity.
    + exfalso. unfold growth in Hnan.
      rewrite mul_hundred_not_nan in Hnan; [discriminate|].
      apply div_finite_not_nan. now apply sub_finite_not_nan.
  - intros [Hzp Hzc]. now rewrite growth_zero_zero.
Qed.

(** A total that has not changed gives growth 0 (with the sign of the total). *)
Lemma growth_unchanged (x : spec_float) :
  isFinite x = true -> Number.is_zero x = false ->
  Number.is_zero (growth x x) = true.
Proof.
  destruct x as [s| | |s m e]; try discriminate. intros _ _.
  unfold growth. rewrite hundred_finite.
  assert (E : Number.sub (S754_finite s m e) (S754_finite s m e) = S754_zero false).
  { unfold Number.sub, SFsub, shl_align.
    change (IntDef.Z.min e e) with (Z.min e e).
    now rewrite Z.min_id, Z.sub_diag. }
  rewrite E. reflexivity.
Qed.

(** Growth between finite totals (lines 96-101): for two entries listed one
    after the other whose sales totals are finite, the sales growth of the
    later one is [NaN] exactly when both totals are zero; and when the totals
    are equal and not zero, it is zero.  The same holds of profit. *)
Theorem growth_between_finite_totals (data : list Row) (i : nat)
  (previous entry : YearlyData) :
  nth_error (yearlyStats data) i = Some previous ->
  nth_error (yearlyStats data) (S i) = Some entry ->
  (isFinite (sales previous) = true -> isFinite (sales entry) = true ->
   (Number.is_nan (salesGrowth entry) = true <->
    Number.is_zero (sales previous) = true /\
    Number.is_zero (sales entry) = true) /\
   (Number.is_zero (sales previous) = false ->
    sales entry = sales previous ->
    Number.is_zero (salesGrowth entry) = true)) /\
  (isFinite (profit previous) = true -> isFinite (profit entry) = true ->
   (Number.is_nan (profitGrowth entry) = true <->
    Number.is_zero (profit previous) = true /\
    Number.is_zero (profit entry) = true) /\
   (Number.is_zero (profit previous) = false ->
    profit entry = profit previous ->
    Number.is_zero (profitGrowth entry) = true)).
Proof.
  intros Hp He.
  destruct (yearlyStats_adjacent data i previous entry Hp He) as [-> ->].
  split; intros Hfp Hfe; (split; [now apply growth_nan_iff|]);
    intros Hz E; rewrite E; now apply growth_unchanged.
Qed.

Lemma growth_between_finite_totals_witness :
  let data :=
    [mkRow (ValidDate 2020) (Number.of_Z 100) Number.zero "Chairs";
     mkRow (ValidDate 2021) (Number.of_Z 100) Number.zero "Chairs"] in
  let previous := nth 0 (yearlyStats data) (yearlyEntry "" []) in
  let entry := nth 1 (yearlyStats data) (yearlyEntry "" []) in
  Number.is_zero (salesGrowth entry) = true /\
  Number.is_nan (profitGrowth entry) = true.
Proof.
  intros data previous entry.
  pose proof (growth_between_finite_totals data 0 previous entry
                eq_refl eq_refl) as [Hs Hpr].
  split.
  - exact (proj2 (Hs eq_refl eq_refl) eq_refl eq_refl).
  - exact (proj2 (proj1 (Hpr eq_refl eq_refl)) (conj eq_refl eq_refl)).
Defined.

(** ** Percentages as text *)

Lemma magnitude_den_pos (e : Z) : (0 < magnitude_den e)%Z.
Proof. unfold magnitude_den. apply Z.pow_pos_nonneg; lia. Qed.

Lemma magnitude_num_pos (m : positive) (e : Z) : (0 < magnitude_num m e)%Z.
Proof.
  unfold magnitude_num. apply Z.mul_pos_pos; [lia|].
  apply Z.pow_pos_nonneg; lia.
Qed.

Lemma nearest_scaled_rounds (f : nat) (m : positive) (e : Z) :
  rounds_to f m e (nearest_scaled f m e) /\ (0 <= nearest_scaled f m e)%Z.
Proof.
  unfold rounds_to, nearest_scaled.
  pose proof (magnitude_den_pos e) as Hd.
  pose proof (magnitude_num_pos m e) as Hn.
  assert (Hp : (0 < 10 ^ Z.of_nat f)%Z) by (apply Z.pow_pos_nonneg; lia).
  set (D := magnitude_den e) in *.
  set (N := (magnitude_num m e * 10 ^ Z.of_nat f)%Z).
  assert (HN : (0 < N)%Z) by (unfold N; lia).
  replace (2 * magnitude_num m e * 10 ^ Z.of_nat f)%Z with (2 * N)%Z
    by (unfold N; ring).
  pose proof (Z.div_mod (2 * N + D) (2 * D) ltac:(lia)) as Hdiv.
  pose proof (Z.mod_pos_bound (2 * N + D) (2 * D) ltac:(lia)) as Hmod.
  pose proof (Z.div_pos (2 * N + D) (2 * D) ltac:(lia) ltac:(lia)) as Hq.
  set (n := ((2 * N + D) / (2 * D))%Z) in *.
  repeat split; nia.
Qed.

Lemma rounds_to_unique (f : nat) (m : positive) (e : Z) (n n' : Z) :
  rounds_to f m e n -> rounds_to f m e n' -> n = n'.
Proof.
  unfold rounds_to. pose proof (magnitude_den_pos e) as Hd.
  intros [H1 H2] [H1' H2']. nia.
Qed.

Lemma string_length_app (a b : string) :
  String.length (a ++ b)%string = (String.length a + String.length b)%nat.
Proof. induction a as [|c a IH]; simpl; [reflexivity|now rewrite IH]. Qed.

Lemma string_app_assoc (a b c : string) :
  ((a ++ b) ++ c)%string = (a ++ b ++ c)%string.
Proof. induction a as [|x a IH]; simpl; [reflexivity|now rewrite IH]. Qed.

Lemma substring_app_l (a b : string) :
  substring 0 (String.length a) (a ++ b)%string = a.
Proof.
  induction a as [|c a IH]; simpl; [now destruct b|now rewrite IH].
Qed.

Lemma substring_whole (b : string) : substring 0 (String.length b) b = b.
Proof. induction b as [|c b IH]; simpl; [reflexivity|now rewrite IH]. Qed.

Lemma substring_app_r (a b : string) :
  substring (String.length a) (String.length b) (a ++ b)%string = b.
Proof.
  induction a as [|c a IH]; simpl; [apply substring_whole|exact IH].
Qed.

Lemma string_of_uint_revapp (d acc : Decimal.uint) :
  NilEmpty.string_of_uint (Decimal.revapp d acc)
  = (NilEmpty.string_of_uint (Decimal.rev d) ++ NilEmpty.string_of_uint acc)%string.
Proof.
  unfold Decimal.rev. revert acc.
  induction d as [|d IH|d IH|d IH|d IH|d IH|d IH|d IH|d IH|d IH|d IH];
    intros acc; simpl; [reflexivity|..];
    rewrite IH, (IH (_ Decimal.Nil)); simpl; now rewrite string_app_assoc.
Qed.

Lemma to_lu_tenfold_plus (p : positive) (k : nat) :
  DecimalPos.Unsigned.to_lu (10 * N.pos p + N.of_nat k)
  = Nat.iter k Decimal.Little.succ
      (Decimal.D0 (DecimalPos.Unsigned.to_lu (N.pos p))).
Proof.
  induction k as [|k IH].
  - rewrite N.add_0_r. apply DecimalPos.Unsigned.to_ldec_tenfold.
  - replace (10 * N.pos p + N.of_nat (S k))%N
      with (N.succ (10 * N.pos p + N.of_nat k)) by lia.
    rewrite DecimalPos.Unsigned.to_lu_succ, IH. reflexivity.
Qed.

(** The decimal digits of [10 q + r] are those of [q] followed by the digit
    [r]. *)
Lemma decimal_digits_snoc (q r : Z) :
  (0 < q)%Z -> (0 <= r < 10)%Z ->
  decimal_digits (10 * q + r) = (decimal_digits q ++ decimal_digits r)%string.
Proof.
  intros Hq Hr. unfold decimal_digits.
  destruct q as [|p|p]; try lia. clear Hq.
  assert (Hk : exists k, (k < 10)%nat /\ r = Z.of_nat k).
  { exists (Z.to_nat r). lia. }
  destruct Hk as (k & Hk & ->).
  replace (Z.to_N (10 * Z.pos p + Z.of_nat k)) with (10 * N.pos p + N.of_nat k)%N
    by lia.
  replace (Z.to_N (Z.of_nat k)) with (N.of_nat k) by lia.
  change (Z.to_N (Z.pos p)) with (N.pos p).
  assert (Hrev : forall n, n <> 0%N ->
            N.to_uint n = Decimal.rev (DecimalPos.Unsigned.to_lu n)).
  { intros [|n] Hn; [contradiction|reflexivity]. }
  rewrite (Hrev (10 * N.pos p + N.of_nat k)%N) by lia.
  rewrite (Hrev (N.pos p)) by lia.
  rewrite to_lu_tenfold_plus.
  do 10 (destruct k as [|k];
         [unfold Decimal.rev; simpl Nat.iter; simpl Decimal.revapp;
          rewrite string_of_uint_revapp; reflexivity|]).
  lia.
Qed.

Lemma decimal_digit_length (r : Z) :
  (0 <= r < 10)%Z -> String.length (decimal_digits r) = 1%nat.
Proof.
  intros Hr.
  assert (Hk : exists k, (k < 10)%nat /\ r = Z.of_nat k).
  { exists (Z.to_nat r). lia. }
  destruct Hk as (k & Hk & ->).
  do 10 (destruct k as [|k]; [reflexivity|]). lia.
Qed.

Lemma decimal_digits_nonempty (q : Z) : (1 <= String.length (decimal_digits q))%nat.
Proof.
  unfold decimal_digits.
  assert (H : N.to_uint (Z.to_N q) <> Decimal.Nil).
  { destruct (Z.to_N q) as [|p]; [discriminate|].
    apply DecimalPos.Unsigned.to_uint_nonnil. }
  destruct (N.to_uint (Z.to_N q)); simpl; try lia. contradiction.
Qed.

(** One digit after the point: the digits of [10 q + r], split before the
    last one. *)
Lemma fixed_digits_one (q r : Z) :
  (0 <= q)%Z -> (0 <= r < 10)%Z ->
  fixed_digits 1 (10 * q + r)
  = (decimal_digits q ++ "." ++ decimal_digits r)%string.
Proof.
  intros Hq Hr.
  assert (Hcase : q = 0%Z \/ (0 < q)%Z) by lia.
  destruct Hcase as [->|Hpos].
  - assert (Hk : exists k, (k < 10)%nat /\ r = Z.of_nat k).
    { exists (Z.to_nat r). lia. }
    destruct Hk as (k & Hk & ->).
    do 10 (destruct k as [|k]; [reflexivity|]). lia.
  - unfold fixed_digits. rewrite decimal_digits_snoc by assumption.
    pose proof (decimal_digits_nonempty q) as Hlen.
    pose proof (decimal_digit_length r Hr) as Hone.
    cbv zeta. rewrite string_length_app, Hone.
    destruct (String.length (decimal_digits q) + 1 <=? 1)%nat eqn:E;
      [apply Nat.leb_le in E; lia|].
    rewrite string_length_app, Hone.
    replace (String.length (decimal_digits q) + 1 - 1)%nat
      with (String.length (decimal_digits q)) by lia.
    rewrite substring_app_l.
    rewrite <- Hone at 1. now rewrite substring_app_r.
Qed.

(** [value.toFixed(1)] and [value.toFixed(0)] of a finite value below
    10^21. *)
Lemma toFixed_one (toString_large : spec_float -> string)
  (s : bool) (m : positive) (e : Z) :
  (magnitude_num m e < 10 ^ 21 * magnitude_den e)%Z ->
  exists q r : Z,
    (0 <= q)%Z /\ (0 <= r < 10)%Z /\ rounds_to 1 m e (10 * q + r) /\
    toFixed toString_large 1 (S754_finite s m e)
    = ((if s then "-" else "") ++ decimal_digits q ++ "." ++ decimal_digits r)%string.
Proof.
  intros Hlt. destruct (nearest_scaled_rounds 1 m e) as [Hr Hn].
  set (n := nearest_scaled 1 m e) in *.
  exists (n / 10)%Z, (n mod 10)%Z.
  pose proof (Z.div_mod n 10 ltac:(lia)) as Hdm.
  pose proof (Z.mod_pos_bound n 10 ltac:(lia)) as Hmod.
  pose proof (Z.div_pos n 10 Hn ltac:(lia)) as Hq.
  split; [exact Hq|]. split; [exact Hmod|].
  rewrite <- Hdm. split; [exact Hr|].
  unfold toFixed.
  destruct (10 ^ 21 * magnitude_den e <=? magnitude_num m e)%Z eqn:E;
    [apply Z.leb_le in E; lia|].
  fold n. rewrite Hdm at 1. now rewrite fixed_digits_one.
Qed.

Lemma toFixed_zero (toString_large : spec_float -> string)
  (s : bool) (m : positive) (e : Z) :
  (magnitude_num m e < 10 ^ 21 * magnitude_den e)%Z ->
  exists n : Z,
    (0 <= n)%Z /\ rounds_to 0 m e n /\
    toFixed toString_large 0 (S754_finite s m e)
    = ((if s then "-" else "") ++ decimal_digits n)%string.
Proof.
  intros Hlt. destruct (nearest_scaled_rounds 0 m e) as [Hr Hn].
  exists (nearest_scaled 0 m e). split; [exact Hn|]. split; [exact Hr|].
  unfold toFixed.
  destruct (10 ^ 21 * magnitude_den e <=? magnitude_num m e)%Z eqn:E;
    [apply Z.leb_le in E; lia|].
  reflexivity.
Qed.

(** [formatPercent] (lines 19-21), which is [value.toFixed(1)] followed by a
    percent sign: for a finite value other than zero, of magnitude below
    10^21, the text is the sign of the value (kept even when the figure shown
    is 0.0), the decimal digits of a whole part, a point, one digit and the
    percent sign, where the tenths shown are the magnitude rounded to the
    nearest tenth, a half being rounded up; no other number of tenths is as
    near.  A zero of either sign reads [0.0%], and a value that is not finite
    reads [NaN%], [Infinity%] or [-Infinity%]. *)
Theorem formatPercent_rounds (toString_large : spec_float -> string) :
  (forall (s : bool) (m : positive) (e : Z),
     (magnitude_num m e < 10 ^ 21 * magnitude_den e)%Z ->
     exists q r : Z,
       (0 <= q)%Z /\ (0 <= r < 10)%Z /\
       rounds_to 1 m e (10 * q + r) /\
       (forall n, rounds_to 1 m e n -> n = (10 * q + r)%Z) /\
       formatPercent toString_large (S754_finite s m e)
       = ((if s then "-" else "") ++ decimal_digits q ++ "."
          ++ decimal_digits r ++ "%")%string) /\
  (forall s, formatPercent toString_large (S754_zero s) = "0.0%") /\
  formatPercent toString_large S754_nan = "NaN%" /\
  formatPercent toString_large (S754_infinity false) = "Infinity%" /\
  formatPercent toString_large (S754_infinity true) = "-Infinity%".
Proof.
  split; [|repeat split].
  intros s m e Hlt.
  destruct (toFixed_one toString_large s m e Hlt) as (q & r & Hq & Hr & Hn & E).
  exists q, r. split; [exact Hq|]. split; [exact Hr|]. split; [exact Hn|].
  split; [intros n Hn'; exact (rounds_to_unique 1 m e _ _ Hn' Hn)|].
  unfold formatPercent. rewrite E.
  now rewrite !string_app_assoc.
Qed.

Lemma formatPercent_rounds_witness :
  let small := Number.div (Number.of_Z (-4)) (Number.of_Z 100) in
  small = S754_finite true 5764607523034235 (-57) /\
  (magnitude_num 5764607523034235 (-57)
   < 10 ^ 21 * magnitude_den (-57))%Z /\
  formatPercent (fun _ => "") small = "-0.0%" /\
  exists q r : Z,
    (0 <= q)%Z /\ (0 <= r < 10)%Z /\
    rounds_to 1 5764607523034235 (-57) (10 * q + r) /\
    (forall n, rounds_to 1 5764607523034235 (-57) n -> n = (10 * q + r)%Z) /\
    formatPercent (fun _ => "") (S754_finite true 5764607523034235 (-57))
    = ("-" ++ decimal_digits q ++ "." ++ decimal_digits r ++ "%")%string.
Proof.
  intros small. split; [reflexivity|]. split; [reflexivity|].
  split; [reflexivity|].
  exact (proj1 (formatPercent_rounds (fun _ => ""))
           true 5764607523034235%positive (-57)%Z eq_refl).
Defined.

(** The label of a pie slice (line 271), [name], a space and
    [(percent * 100).toFixed(0)] with a percent sign in brackets: when the
    product is finite, not zero and of magnitude below 10^21, the figure is
    the sign of the product and the decimal digits of its magnitude rounded to
    the nearest whole number, a half being rounded up; a share of zero reads
    [0%], and a share that is [NaN] reads [NaN%]. *)
Theorem pieLabel_rounds (toString_large : spec_float -> string)
  (name : string) (percent : spec_float) :
  (forall (s : bool) (m : positive) (e : Z),
     Number.mul percent Number.hundred = S754_finite s m e ->
     (magnitude_num m e < 10 ^ 21 * magnitude_den e)%Z ->
     exists n : Z,
       (0 <= n)%Z /\ rounds_to 0 m e n /\
       (forall n', rounds_to 0 m e n' -> n' = n) /\
       pieLabel toString_large name percent
       = (name ++ " (" ++ (if s then "-" else "") ++ decimal_digits n
          ++ "%)")%string) /\
  (Number.is_zero percent = true ->
   pieLabel toString_large name percent = (name ++ " (0%)")%string) /\
  (Number.is_nan percent = true ->
   pieLabel toString_large name percent = (name ++ " (NaN%)")%string).
Proof.
  split; [|split].
  - intros s m e Hmul Hlt.
    destruct (toFixed_zero toString_large s m e Hlt) as (n & Hn & Hr & E).
    exists n. split; [exact Hn|]. split; [exact Hr|].
    split; [intros n' Hn'; exact (rounds_to_unique 0 m e _ _ Hn' Hr)|].
    unfold pieLabel. rewrite Hmul, E. now rewrite !string_app_assoc.
  - destruct percent as [s| | |]; try discriminate. intros _.
    unfold pieLabel. rewrite hundred_finite. reflexivity.
  - destruct percent as [s| | |]; try discriminate. intros _. reflexivity.
Qed.

Lemma pieLabel_rounds_witness :
  let eighth := Number.div (Number.of_Z 1) (Number.of_Z 8) in
  Number.mul eighth Number.hundred = S754_finite false 7036874417766400 (-49) /\
  pieLabel (fun _ => "") "Chairs" eighth = "Chairs (13%)" /\
  exists n : Z,
    (0 <= n)%Z /\ rounds_to 0 7036874417766400 (-49) n /\
    (forall n', rounds_to 0 7036874417766400 (-49) n' -> n' = n) /\
    pieLabel (fun _ => "") "Chairs" eighth
    = ("Chairs" ++ " (" ++ "" ++ decimal_digits n ++ "%)")%string.
Proof.
  intros eighth. split; [reflexivity|]. split; [reflexivity|].
  exact (proj1 (pieLabel_rounds (fun _ => "") "Chairs" eighth)
           false 7036874417766400%positive (-49)%Z eq_refl eq_refl).
Defined.
